(** * sample-ai-agent: the bounded decision loop and the task lifecycle

    A shallow embedding of [agent.py] (the [AIAgent] class with its tool
    registry, memory and [execute_task] loop) and of [app.py] (the Flask
    handlers and the background worker that keep one Redis hash per task),
    followed by the properties of the loop and of the task records.

    External services are not part of the repository.  They enter the
    model as explicit inputs: an [Env] gives the outcome of every call to
    the OpenAI and Tavily clients and of [time.time()]; the JSON codec,
    [repr] and the value encoder of the Redis client are section
    variables.  [list_tasks] and [health_check] only read, and are left
    out. *)

From Stdlib Require Import ZArith Ascii String List Bool Lia.
From stdpp Require Import gmap strings list fin_maps.

Set Warnings "-register-all".

Local Open Scope string_scope.
Local Open Scope list_scope.

(** ** Python values *)

(** The values that flow through the program are the ones [json.loads]
    produces, plus the floats of [time.time()].  A float is kept as its
    IEEE-754 binary64 bit pattern.  A [dict] is an association list in
    insertion order; every dict built by the program has distinct keys. *)
Inductive pyval : Type :=
| PNone
| PBool (b : bool)
| PInt (n : Z)
| PFloat (bits : Z)
| PStr (s : string)
| PList (items : list pyval)
| PDict (items : list (string * pyval)).

Abbreviation pydict := (list (string * pyval)).

(** The exceptions the orchestration code itself can raise. *)
Inductive exn : Type :=
| AttributeError (type_name attr : string)
| KeyError (key : string)
| TypeError (msg : string)
| JSONDecodeError (msg : string)
| DataError (msg : string).

Definition type_name (v : pyval) : string :=
  match v with
  | PNone => "NoneType"
  | PBool _ => "bool"
  | PInt _ => "int"
  | PFloat _ => "float"
  | PStr _ => "str"
  | PList _ => "list"
  | PDict _ => "dict"
  end.

(** [str(e)] for the exceptions above. *)
Definition str_exn (e : exn) : string :=
  match e with
  | AttributeError ty attr =>
      "'" +:+ ty +:+ "' object has no attribute '" +:+ attr +:+ "'"
  | KeyError k => "'" +:+ k +:+ "'"
  | TypeError msg => msg
  | JSONDecodeError msg => msg
  | DataError msg => msg
  end.

Fixpoint lookup_item (k : string) (d : pydict) : option pyval :=
  match d with
  | [] => None
  | (k', v) :: d' => if String.eqb k k' then Some v else lookup_item k d'
  end.

(** [v.get(k)]: [None] when the key is missing, [AttributeError] when [v]
    is not a dict. *)
Definition py_get (v : pyval) (k : string) : exn + pyval :=
  match v with
  | PDict d => inr (default PNone (lookup_item k d))
  | _ => inl (AttributeError (type_name v) "get")
  end.

(** [v[k]] with a string key: only a dict can be indexed that way. *)
Definition py_getitem (v : pyval) (k : string) : exn + pyval :=
  match v with
  | PDict d =>
      match lookup_item k d with
      | Some x => inr x
      | None => inl (KeyError k)
      end
  | PList _ => inl (TypeError "list indices must be integers or slices, not str")
  | PStr _ => inl (TypeError "string indices must be integers, not 'str'")
  | _ => inl (TypeError ("'" +:+ type_name v +:+ "' object is not subscriptable"))
  end.

(** [v == s] for a string literal [s]. *)
Definition py_eq_str (v : pyval) (s : string) : bool :=
  match v with
  | PStr s' => String.eqb s' s
  | _ => false
  end.

(** ** The outside world *)

(** Outcome of a call that leaves the process: it raises (with the text
    of [str(e)]) or it returns a value. *)
Inductive reply : Type :=
| Raises (msg : string)
| Returns (v : pyval).

(** What the environment does during one run of [execute_task].  The
    index is the value of [current_step] in the iteration that makes the
    call: an iteration makes at most one call of each kind, and
    [current_step] grows whenever the loop goes round again.

    - [oracle i task names]: the [try] body of [_decide_next_action], that
      is the chat completion request followed by [json.loads] of its
      content; [Raises] when either of them raises.
    - [tavily_search i query]: [tavily_client.search].
    - [openai_chat i system text]: a chat completion with the given system
      prompt, up to [response.choices[0].message.content].
    - [time_time i]: [time.time()], as bits of a float. *)
Record Env : Type := {
  oracle : nat -> pyval -> list string -> reply;
  tavily_search : nat -> pyval -> reply;
  openai_chat : nat -> string -> pyval -> reply;
  time_time : nat -> Z
}.

(** ** agent.py *)

Record Tool : Type := {
  name : string;
  description : string;
  function : Env -> nat -> pyval -> pydict
}.

Record AgentState : Type := {
  current_task : pyval;
  memory : list pydict;
  context : pydict
}.

Record AIAgent : Type := {
  state : AgentState;
  tools : list Tool
}.

Definition _search_web (env : Env) (i : nat) (query : pyval) : pydict :=
  match tavily_search env i query with
  | Returns results => [("status", PStr "success"); ("results", results)]
  | Raises e => [("status", PStr "error"); ("message", PStr e)]
  end.

Definition _analyze_text (env : Env) (i : nat) (text : pyval) : pydict :=
  match openai_chat env i "Analyze the following text and provide insights:" text with
  | Returns content => [("status", PStr "success"); ("analysis", content)]
  | Raises e => [("status", PStr "error"); ("message", PStr e)]
  end.

Definition _summarize_text (env : Env) (i : nat) (text : pyval) : pydict :=
  match openai_chat env i "Provide a concise summary of the following text:" text with
  | Returns content => [("status", PStr "success"); ("summary", content)]
  | Raises e => [("status", PStr "error"); ("message", PStr e)]
  end.

Definition _initialize_tools : list Tool :=
  [ {| name := "web_search";
       description := "Search the web for information";
       function := _search_web |};
    {| name := "analyze_text";
       description := "Analyze text using OpenAI";
       function := _analyze_text |};
    {| name := "summarize";
       description := "Summarize given text";
       function := _summarize_text |} ].

(** [AgentState()] and [AIAgent()]. *)
Definition AgentState_new : AgentState :=
  {| current_task := PStr ""; memory := []; context := [] |}.

Definition AIAgent_new : AIAgent :=
  {| state := AgentState_new; tools := _initialize_tools |}.

Definition _decide_next_action (env : Env) (self : AIAgent) (i : nat)
    (task : pyval) : pyval :=
  match oracle env i task (map name (tools self)) with
  | Returns action => action
  | Raises e => PDict [("status", PStr "error"); ("message", PStr e)]
  end.

Definition update_memory (env : Env) (i : nat) (self : AIAgent)
    (action : pyval) (result : pydict) : AIAgent :=
  let st := state self in
  {| state := {| current_task := current_task st;
                 memory := memory st ++
                   [[("timestamp", PFloat (time_time env i));
                     ("action", action);
                     ("result", PDict result)]];
                 context := context st |};
     tools := tools self |}.

Definition set_current_task (self : AIAgent) (task : pyval) : AIAgent :=
  let st := state self in
  {| state := {| current_task := task;
                 memory := memory st;
                 context := context st |};
     tools := tools self |}.

Definition max_steps : nat := 5.

(** The variables of [execute_task] that the loop reads and writes. *)
Record locals : Type := {
  self_ : AIAgent;
  results : list pydict;
  current_step : nat
}.

(** How one pass through the body of the [while] ends. *)
Inductive flow : Type :=
| Next (l : locals)
| Break (l : locals)
| Throw (e : exn) (l : locals).

(** How [execute_task] ends; in both cases the agent is the shared object
    as the run left it. *)
Inductive outcome : Type :=
| Returned (trajectory : list pydict) (self : AIAgent)
| Raised (e : exn) (self : AIAgent).

Definition agent_of (o : outcome) : AIAgent :=
  match o with
  | Returned _ self => self
  | Raised _ self => self
  end.

Section Agent.

(** [str(v)] of a value that is not a string, as an f-string formats it. *)
Variable py_repr : pyval -> string.

Definition py_format (v : pyval) : string :=
  match v with
  | PStr s => s
  | _ => py_repr v
  end.

Definition append_result (l : locals) (r : pydict) : locals :=
  {| self_ := self_ l; results := results l ++ [r]; current_step := current_step l |}.

(** The body of the [while] loop.  [action["tool_name"]] is evaluated
    inside the generator for the first tool, and again in the f-string
    when no tool matches, so a missing key raises [KeyError] whatever the
    registry holds; the model looks the key up once, before the search. *)
Definition loop_body (env : Env) (task : pyval) (l : locals) : flow :=
  let i := current_step l in
  let action := _decide_next_action env (self_ l) i task in
  match py_get action "status" with
  | inl e => Throw e l
  | inr status =>
    if py_eq_str status "error" then
      Break (append_result l [("error", PStr "Failed to decide next action")])
    else
      match py_getitem action "tool_name" with
      | inl e => Throw e l
      | inr tool_name =>
        match find (fun t => py_eq_str tool_name (name t)) (tools (self_ l)) with
        | None =>
          Break (append_result l
                   [("error", PStr ("Tool " +:+ py_format tool_name +:+ " not found"))])
        | Some tool =>
          match py_getitem action "input" with
          | inl e => Throw e l
          | inr input =>
            let result := function tool env i input in
            let self' := update_memory env i (self_ l) action result in
            let results' := (results l ++
                  [[("step", PInt (Z.of_nat (current_step l + 1)));
                    ("action", action);
                    ("result", PDict result)]])%list in
            if py_eq_str (default PNone (lookup_item "status" result)) "success"
            then Break {| self_ := self'; results := results';
                          current_step := current_step l |}
            else Next {| self_ := self'; results := results';
                         current_step := current_step l + 1 |}
          end
        end
      end
  end.

(** [while current_step < max_steps: ...], with fuel for the recursion;
    [None] stands for a loop that has not ended when the fuel is spent. *)
Fixpoint while_loop (fuel : nat) (env : Env) (task : pyval) (l : locals)
    : option outcome :=
  match fuel with
  | O => None
  | S fuel' =>
    if (current_step l <? max_steps)%nat then
      match loop_body env task l with
      | Next l' => while_loop fuel' env task l'
      | Break l' => Some (Returned (results l') (self_ l'))
      | Throw e l' => Some (Raised e (self_ l'))
      end
    else Some (Returned (results l) (self_ l))
  end.

Definition execute_task (env : Env) (self : AIAgent) (task : pyval)
    : option outcome :=
  while_loop (S max_steps) env task
    {| self_ := set_current_task self task; results := []; current_step := 0 |}.

End Agent.

(** ** Vocabulary for the properties of the loop *)

(** The two shapes of a trajectory entry and the shape of a memory entry,
    as the dict literals of [execute_task] and [update_memory] build
    them. *)
Definition step_entry (n : nat) (action : pyval) (result : pydict) : pydict :=
  [("step", PInt (Z.of_nat n)); ("action", action); ("result", PDict result)].

Definition error_entry (msg : string) : pydict := [("error", PStr msg)].

Definition memory_entry (bits : Z) (action : pyval) (result : pydict) : pydict :=
  [("timestamp", PFloat bits); ("action", action); ("result", PDict result)].

(** The tool name of an action that the loop takes as a decision: a dict
    whose [status] is not ["error"] and that has a [tool_name]. *)
Definition decided (action : pyval) : option pyval :=
  match action with
  | PDict d =>
      if py_eq_str (default PNone (lookup_item "status" d)) "error" then None
      else lookup_item "tool_name" d
  | _ => None
  end.

(** A decision that also carries the [input] for the tool. *)
Definition proposal_of (action : pyval) : option (pyval * pyval) :=
  match decided action, action with
  | Some tool_name, PDict d =>
      match lookup_item "input" d with
      | Some input => Some (tool_name, input)
      | None => None
      end
  | _, _ => None
  end.

Definition resolve (registry : list Tool) (tool_name : pyval) : option Tool :=
  find (fun t => py_eq_str tool_name (name t)) registry.

(** What iteration [i] of a run hands to a tool and gets back, when the
    oracle's output is a proposal for a registered tool: the action and
    the result of the invocation. *)
Definition invocation (env : Env) (registry : list Tool) (task : pyval)
    (i : nat) : option (pyval * pydict) :=
  match oracle env i task (map name registry) with
  | Returns action =>
      match proposal_of action with
      | Some (tool_name, input) =>
          match resolve registry tool_name with
          | Some tool => Some (action, function tool env i input)
          | None => None
          end
      | None => None
      end
  | Raises _ => None
  end.

Definition tagged (tag : string) (result : pydict) : Prop :=
  lookup_item "status" result = Some (PStr tag).

Definition is_success (result : pydict) : bool :=
  py_eq_str (default PNone (lookup_item "status" result)) "success".

(** Iteration [i] invokes a tool and the loop goes round again: the
    result is not tagged [success]. *)
Definition goes_on (env : Env) (registry : list Tool) (task : pyval)
    (i : nat) : Prop :=
  exists action result,
    invocation env registry task i = Some (action, result) /\
    is_success result = false.

(** The locals after the two appends of an iteration that invokes a tool,
    and after [current_step += 1]. *)
Definition recorded (env : Env) (l : locals) (action : pyval) (result : pydict)
    : locals :=
  {| self_ := update_memory env (current_step l) (self_ l) action result;
     results := results l ++ [step_entry (current_step l + 1) action result];
     current_step := current_step l |}.

Definition advanced (l : locals) : locals :=
  {| self_ := self_ l; results := results l; current_step := current_step l + 1 |}.

(** A trajectory step and the memory entry of the same invocation. *)
Definition same_step (e m : pydict) : Prop :=
  exists n bits action result,
    e = step_entry n action result /\ m = memory_entry bits action result.

(** The terminal entry of a trajectory, when it has one: the decision
    failed, or the decision named a tool that is not registered. *)
Definition terminal_entry (py_repr : pyval -> string) (e : pydict) : Prop :=
  e = error_entry "Failed to decide next action" \/
  exists tool_name,
    e = error_entry ("Tool " +:+ py_format py_repr tool_name +:+ " not found").

(** The client call behind a built-in tool raises with message [msg]. *)
Inductive invocation_fails (env : Env) (i : nat) (input : pyval) (msg : string)
    : Tool -> Prop :=
| search_fails :
    tavily_search env i input = Raises msg ->
    invocation_fails env i input msg
      {| name := "web_search"; description := "Search the web for information";
         function := _search_web |}
| analyze_fails :
    openai_chat env i "Analyze the following text and provide insights:" input
      = Raises msg ->
    invocation_fails env i input msg
      {| name := "analyze_text"; description := "Analyze text using OpenAI";
         function := _analyze_text |}
| summarize_fails :
    openai_chat env i "Provide a concise summary of the following text:" input
      = Raises msg ->
    invocation_fails env i input msg
      {| name := "summarize"; description := "Summarize given text";
         function := _summarize_text |}.

(** The Proposal of the specification, [{capability_name, input,
    rationale}], and the reading of an oracle output as one: an object
    whose [tool_name], [input] and [reasoning] are strings.  This follows
    the specification's data model, not a function of the source; the
    source has no such parser. *)
Record Proposal : Type := {
  capability_name : string;
  proposal_input : string;
  rationale : string
}.

Definition parse_proposal (v : pyval) : option Proposal :=
  match v with
  | PDict d =>
      match lookup_item "tool_name" d, lookup_item "input" d,
            lookup_item "reasoning" d with
      | Some (PStr c), Some (PStr i), Some (PStr r) =>
          Some {| capability_name := c; proposal_input := i; rationale := r |}
      | _, _, _ => None
      end
  | _ => None
  end.

Definition proposal_json (p : Proposal) : pyval :=
  PDict [("tool_name", PStr (capability_name p));
         ("input", PStr (proposal_input p));
         ("reasoning", PStr (rationale p))].

(** ** The Redis store *)

(** One key of the store: a hash (field to string) and, once [EXPIRE] has
    been called on it, the instant at which the key stops existing.  Time
    is counted in seconds. *)
Record entry : Type := {
  fields : gmap string string;
  deadline : option Z
}.

Abbreviation redis := (gmap string entry).

Definition live (now : Z) (e : entry) : bool :=
  match deadline e with
  | None => true
  | Some d => (now <? d)%Z
  end.

(** The entry a command issued at [now] finds under [key]: a key whose
    deadline has passed is gone, whether or not the server has reclaimed
    it yet. *)
Definition current (now : Z) (key : string) (db : redis) : option entry :=
  match db !! key with
  | Some e => if live now e then Some e else None
  | None => None
  end.

(** [HSET key field value ...]: sets the fields of the hash, creating the
    key (without a deadline) when it does not exist; an existing key keeps
    its other fields and its deadline. *)
Definition hset (now : Z) (key : string) (mapping : gmap string string)
    (db : redis) : redis :=
  match current now key db with
  | Some e => <[key := {| fields := mapping ∪ fields e; deadline := deadline e |}]> db
  | None => <[key := {| fields := mapping; deadline := None |}]> db
  end.

(** [EXPIRE key seconds]: no effect on a key that does not exist. *)
Definition expire (now : Z) (key : string) (seconds : Z) (db : redis) : redis :=
  match current now key db with
  | Some e => <[key := {| fields := fields e; deadline := Some (now + seconds)%Z |}]> db
  | None => db
  end.

(** [HGETALL key]: the empty dict for a key that does not exist. *)
Definition hgetall (now : Z) (key : string) (db : redis) : gmap string string :=
  match current now key db with
  | Some e => fields e
  | None => ∅
  end.

(** ** app.py *)

(** What a request handler produces: a response with its status code and
    JSON body, or an exception that leaves the handler. *)
Inductive http : Type :=
| Response (code : Z) (body : pydict)
| Unhandled (e : exn).

Definition task_key (task_id : string) : string := "task:" +:+ task_id.

(** Truth value of a request body in [not data]. *)
Definition py_truthy (v : pyval) : bool :=
  match v with
  | PNone => false
  | PBool b => b
  | PInt n => negb (n =? 0)%Z
  | PFloat bits => negb ((bits =? 0)%Z || (bits =? 2 ^ 63)%Z)
  | PStr s => negb (String.eqb s "")
  | PList items => match items with [] => false | _ => true end
  | PDict items => match items with [] => false | _ => true end
  end.

(** ['task' in v]. *)
Definition py_contains (k : string) (v : pyval) : exn + bool :=
  match v with
  | PDict d => inr (match lookup_item k d with Some _ => true | None => false end)
  | PList items => inr (existsb (fun x => py_eq_str x k) items)
  | PStr s => inr (match String.index 0 k s with Some _ => true | None => false end)
  | _ => inl (TypeError ("argument of type '" +:+ type_name v +:+ "' is not iterable"))
  end.

Section Lifecycle.

Variable py_repr : pyval -> string.

(** [json.dumps] on a trajectory, and [json.loads] with [Raises] for a
    text that is not JSON. *)
Variable json_dumps : list pydict -> string.
Variable json_loads : string -> reply.

(** The text the Redis client sends for a field value; [None] when the
    client refuses the value with [DataError]. *)
Variable redis_encode : pyval -> option string.

(** The two writes of the worker. *)
Definition store_running (now : Z) (task_id : string) (db : redis) : redis :=
  hset now (task_key task_id) {[ "status" := "running" ]} db.

Definition store_outcome (now : Z) (task_id : string) (o : outcome)
    (db : redis) : redis :=
  match o with
  | Returned results _ =>
      hset now (task_key task_id)
        {[ "status" := "completed";
           "results" := json_dumps results;
           "error" := "" ]} db
  | Raised e _ =>
      hset now (task_key task_id)
        {[ "status" := "failed"; "error" := str_exn e ]} db
  end.

(** [execute_task_async], run on its own from [t_start] to [t_end] with
    the module's agent.  It gives back the store and the agent.  When the
    run of the agent does not end the record is left as it is. *)
Definition execute_task_async (t_start t_end : Z) (env : Env) (agent : AIAgent)
    (task_id : string) (task_description : pyval) (db : redis)
    : redis * AIAgent :=
  let db1 := store_running t_start task_id db in
  match execute_task py_repr env agent task_description with
  | Some o => (store_outcome t_end task_id o db1, agent_of o)
  | None => (db1, agent)
  end.

(** [create_task] with the request body [data] and the identifier that
    [uuid.uuid4()] draws.  Besides the store and the response it gives the
    arguments of the thread it starts, if it starts one. *)
Definition create_task (now : Z) (task_id : string) (data : pyval) (db : redis)
    : redis * http * option (string * pyval) :=
  let no_task := Response 400 [("error", PStr "No task provided")] in
  if negb (py_truthy data) then (db, no_task, None)
  else
    match py_contains "task" data with
    | inl e => (db, Unhandled e, None)
    | inr false => (db, no_task, None)
    | inr true =>
      match py_getitem data "task" with
      | inl e => (db, Unhandled e, None)
      | inr task =>
        match redis_encode task with
        | None =>
          (db, Unhandled (DataError ("Invalid input of type: '" +:+ type_name task +:+ "'")), None)
        | Some text =>
          let db1 := hset now (task_key task_id)
                       {[ "task" := text; "status" := "pending";
                          "results" := ""; "error" := "" ]} db in
          let db2 := expire now (task_key task_id) 3600 db1 in
          (db2,
           Response 200 [("task_id", PStr task_id);
                         ("status", PStr "pending");
                         ("message", PStr "Task created successfully")],
           Some (task_id, task))
        end
      end
    end.

Definition get_task_status (now : Z) (task_id : string) (db : redis) : http :=
  let task_data := hgetall now (task_key task_id) db in
  if decide (task_data = ∅) then
    Response 404 [("error", PStr "Task not found")]
  else
    let response : pydict :=
      [("task_id", PStr task_id);
       ("task", PStr (default "" (task_data !! "task")));
       ("status", PStr (default "unknown" (task_data !! "status")))] in
    (* Include results if task is completed *)
    let with_results : exn + pydict :=
      if decide (task_data !! "status" = Some "completed") then
        match json_loads (default "[]" (task_data !! "results")) with
        | Raises msg => inl (JSONDecodeError msg)
        | Returns v => inr (response ++ [("results", v)])
        end
      else inr response in
    match with_results with
    | inl e => Unhandled e
    | inr response =>
      (* Include error if task failed *)
      if decide (task_data !! "status" = Some "failed") then
        Response 200
          (response ++
             [("error", PStr (default "Unknown error" (task_data !! "error")))])
      else Response 200 response
    end.

(** *** The handlers and the workers together

    A worker is a thread started by [create_task]; it is about to write
    [running], or it is inside [agent.execute_task], or it has written its
    outcome.  The workers of different tasks interleave freely, and every
    command reaches the store at an instant of its own. *)
Inductive pc : Type := Spawned | Executing | Finished.

Record system : Type := {
  db : redis;
  pool : gmap string (pyval * pc)
}.

Definition boot : system := {| db := ∅; pool := ∅ |}.

Definition spawn (started : option (string * pyval))
    (p : gmap string (pyval * pc)) : gmap string (pyval * pc) :=
  match started with
  | Some (task_id, description) => <[task_id := (description, Spawned)]> p
  | None => p
  end.

(** One operation of the service.  [uuid4] draws an identifier that no
    earlier task has; the run of the agent inside a worker is any run of
    [execute_task] on the worker's description. *)
Inductive step : system -> system -> Prop :=
| step_create s now task_id data db' resp started :
    pool s !! task_id = None ->
    create_task now task_id data (db s) = (db', resp, started) ->
    step s {| db := db'; pool := spawn started (pool s) |}
| step_start s now task_id description :
    pool s !! task_id = Some (description, Spawned) ->
    step s {| db := store_running now task_id (db s);
              pool := <[task_id := (description, Executing)]> (pool s) |}
| step_finish s now task_id description env agent o :
    pool s !! task_id = Some (description, Executing) ->
    execute_task py_repr env agent description = Some o ->
    step s {| db := store_outcome now task_id o (db s);
              pool := <[task_id := (description, Finished)]> (pool s) |}
| step_query s now task_id resp :
    get_task_status now task_id (db s) = resp ->
    step s s.

Definition reachable (s : system) : Prop := rtc step boot s.

End Lifecycle.

(** The [status] field that the store holds for a task, whatever its
    deadline. *)
Definition record_status (d : redis) (task_id : string) : option string :=
  match d !! task_key task_id with
  | Some e => fields e !! "status"
  | None => None
  end.

Definition status_of (s : system) (task_id : string) : option string :=
  record_status (db s) task_id.

(** The arrows of the lifecycle: a record appears as [pending], goes to
    [running], and from there to [completed] or to [failed]. *)
Inductive lifecycle_step : option string -> option string -> Prop :=
| ls_submitted : lifecycle_step None (Some "pending")
| ls_started : lifecycle_step (Some "pending") (Some "running")
| ls_completed : lifecycle_step (Some "running") (Some "completed")
| ls_failed : lifecycle_step (Some "running") (Some "failed").

Definition terminal (status : string) : Prop :=
  status = "completed" \/ status = "failed".

(** The store and the workers agree: a task that was never created has no
    key, and the status of a record is the one its worker wrote last. *)
Definition agrees (s : system) : Prop :=
  forall task_id,
    match pool s !! task_id with
    | None => db s !! task_key task_id = None
    | Some (_, Spawned) => status_of s task_id = Some "pending"
    | Some (_, Executing) => status_of s task_id = Some "running"
    | Some (_, Finished) =>
        status_of s task_id = Some "completed" \/
        status_of s task_id = Some "failed"
    end.

(** ** app.py: the listing and the health check *)

(** [s.split(sep)] for a separator of one character: the pieces between
    the separators, in order; never the empty list. *)
Fixpoint split (sep : Ascii.ascii) (s : string) : list string :=
  match s with
  | EmptyString => [""]
  | String c rest =>
      if Ascii.eqb c sep then "" :: split sep rest
      else
        match split sep rest with
        | piece :: pieces => String c piece :: pieces
        | [] => [String c ""]
        end
  end.

Fixpoint has_char (c : Ascii.ascii) (s : string) : bool :=
  match s with
  | EmptyString => false
  | String c' rest => Ascii.eqb c' c || has_char c rest
  end.

(** [scan_iter(pattern)] for a pattern that is a literal prefix followed
    by a star: the keys that exist at [now] and start with the prefix.
    Redis promises no order for them; the model enumerates them in the
    order of the map, and the properties below speak of membership
    only. *)
Definition scan_iter (now : Z) (prefix : string) (db : redis) : list string :=
  map fst
    (List.filter (fun item => String.prefix prefix (fst item) && live now (snd item))
       (map_to_list db)).

(** [list_tasks].  [key.split(":")[-1]] is the last piece of the key;
    [split] gives at least one piece, so the default is never used. *)
Definition list_tasks (now : Z) (db : redis) : http :=
  let tasks :=
    map (fun key =>
           let task_data := hgetall now key db in
           let task_id := default "" (last (split ":"%char key)) in
           PDict [("task_id", PStr task_id);
                  ("task", PStr (default "" (task_data !! "task")));
                  ("status", PStr (default "unknown" (task_data !! "status")))])
        (scan_iter now "task:" db) in
  Response 200 [("tasks", PList tasks)].

Definition health_check : http := Response 200 [("status", PStr "healthy")].

(** One item of the listing. *)
Definition listed (task_id : string) (task_data : gmap string string) : pyval :=
  PDict [("task_id", PStr task_id);
         ("task", PStr (default "" (task_data !! "task")));
         ("status", PStr (default "unknown" (task_data !! "status")))].

(** ** Vocabulary for the further properties *)

(** Entries that are steps without success, each numbered by its place
    in the list, from 1. *)
Definition numbered (entries : list pydict) : Prop :=
  forall j e, entries !! j = Some e ->
    exists action result,
      e = step_entry (j + 1) action result /\ is_success result = false.

(** The shape of a trajectory: unsuccessful numbered steps, and then
    either nothing more, the budget being used up, or one last entry that
    is a successful step or a terminal entry. *)
Definition shaped (py_repr : pyval -> string) (trajectory : list pydict) : Prop :=
  length trajectory <= max_steps /\
  exists front,
    numbered front /\
    ((trajectory = front /\ length front = max_steps) \/
     exists e,
       trajectory = front ++ [e] /\
       ((exists action result,
            e = step_entry (length front + 1) action result /\
            is_success result = true) \/
        terminal_entry py_repr e)).

(** The three ways in which an oracle output that is JSON makes the body
    of the loop raise. *)
Definition fault_of (v : pyval) (e : exn) : Prop :=
  match v with
  | PDict d =>
      (lookup_item "tool_name" d = None /\ e = KeyError "tool_name") \/
      (lookup_item "input" d = None /\ e = KeyError "input")
  | _ => e = AttributeError (type_name v) "get"
  end.

(** What the caller of [execute_task] gets: the list, or the exception. *)
Definition outcome_view (o : outcome) : list pydict + exn :=
  match o with
  | Returned trajectory _ => inl trajectory
  | Raised e _ => inr e
  end.

(** ** Sample environments

    Concrete inputs on which the model is run in the examples.  The four
    functions below stand in for the runtime functions that the model
    takes as parameters; none of the theorems depends on what they
    compute. *)
Definition sample_repr (v : pyval) : string := "<" +:+ type_name v +:+ ">".

Definition sample_dumps (trajectory : list pydict) : string :=
  match trajectory with
  | [] => "[]"
  | _ => "[...]"
  end.

Definition sample_loads (text : string) : reply :=
  if String.eqb text "" then Raises "Expecting value" else Returns (PStr text).

Definition sample_encode (v : pyval) : option string :=
  match v with
  | PStr s => Some s
  | _ => None
  end.

Definition search_news : pyval :=
  PDict [("tool_name", PStr "web_search");
         ("input", PStr "X news");
         ("reasoning", PStr "the task asks for news")].

Definition ask_nonexistent : pyval :=
  PDict [("tool_name", PStr "nonexistent");
         ("input", PStr "X");
         ("reasoning", PStr "no tool fits")].

Definition search_succeeded : pydict :=
  [("status", PStr "success"); ("results", PDict [("results", PList [])])].

Definition search_timed_out : pydict :=
  [("status", PStr "error"); ("message", PStr "timeout")].

Definition web_search_tool : Tool :=
  {| name := "web_search"; description := "Search the web for information";
     function := _search_web |}.

(** The oracle proposes a web search and the search answers. *)
Definition env_search_answers : Env :=
  {| oracle := fun _ _ _ => Returns search_news;
     tavily_search := fun _ _ => Returns (PDict [("results", PList [])]);
     openai_chat := fun _ _ _ => Raises "connection refused";
     time_time := fun i => Z.of_nat i |}.

(** The oracle proposes a web search and the search service is down. *)
Definition env_search_down : Env :=
  {| oracle := fun _ _ _ => Returns search_news;
     tavily_search := fun _ _ => Raises "timeout";
     openai_chat := fun _ _ _ => Raises "connection refused";
     time_time := fun i => Z.of_nat i |}.

(** As [env_search_down], with the oracle call of step 3 failing. *)
Definition env_oracle_fails_third : Env :=
  {| oracle := fun i _ _ =>
       if (i <? 2)%nat then Returns search_news else Raises "rate limit";
     tavily_search := fun _ _ => Raises "timeout";
     openai_chat := fun _ _ _ => Raises "connection refused";
     time_time := fun i => Z.of_nat i |}.

(** The oracle names a tool that does not exist. *)
Definition env_unknown_tool : Env :=
  {| oracle := fun _ _ _ => Returns ask_nonexistent;
     tavily_search := fun _ _ => Raises "timeout";
     openai_chat := fun _ _ _ => Raises "connection refused";
     time_time := fun i => Z.of_nat i |}.

(** The oracle answers with the JSON text of an empty object. *)
Definition env_empty_object : Env :=
  {| oracle := fun _ _ _ => Returns (PDict []);
     tavily_search := fun _ _ => Raises "timeout";
     openai_chat := fun _ _ _ => Raises "connection refused";
     time_time := fun i => Z.of_nat i |}.

(** The oracle's reply is a proposal for a web search that also carries
    a [status] field saying ["error"]. *)
Definition hedged_search : pydict :=
  [("status", PStr "error");
   ("tool_name", PStr "web_search");
   ("input", PStr "X news");
   ("reasoning", PStr "not sure")].

Definition env_reply_says_error : Env :=
  {| oracle := fun _ _ _ => Returns (PDict hedged_search);
     tavily_search := fun _ _ => Returns (PDict [("results", PList [])]);
     openai_chat := fun _ _ _ => Raises "connection refused";
     time_time := fun i => Z.of_nat i |}.

(** An agent that has run before: one entry in its memory. *)
Definition seasoned_agent : AIAgent :=
  {| state := {| current_task := PStr "an earlier task";
                 memory := [memory_entry 0 search_news search_succeeded];
                 context := [] |};
     tools := _initialize_tools |}.

Definition news_request : pyval := PDict [("task", PStr "find news about X")].

(** The answer to the submission of [news_request] under [u1]. *)
Definition created_response : http :=
  Response 200 [("task_id", PStr "u1");
                ("status", PStr "pending");
                ("message", PStr "Task created successfully")].

Definition pending_record (text : string) : gmap string string :=
  {[ "task" := text; "status" := "pending"; "results" := ""; "error" := "" ]}.

(** The store after the submission of [news_request] at instant 0 under
    the identifier [u1], and the service in that state. *)
Definition store_submitted : redis :=
  expire 0 (task_key "u1") 3600
    (hset 0 (task_key "u1") (pending_record "find news about X") ∅).

Definition sample_submitted : system :=
  {| db := store_submitted;
     pool := <["u1" := (PStr "find news about X", Spawned)]> ∅ |}.

(** * Properties of the decision loop *)

Section LoopFacts.

Variable py_repr : pyval -> string.

Lemma tools_set_current_task self task :
  tools (set_current_task self task) = tools self.
Proof. reflexivity. Qed.

Lemma proposal_of_dict action tool_name input :
  proposal_of action = Some (tool_name, input) ->
  exists d, action = PDict d /\
    py_eq_str (default PNone (lookup_item "status" d)) "error" = false /\
    lookup_item "tool_name" d = Some tool_name /\
    lookup_item "input" d = Some input.
Proof.
  unfold proposal_of, decided.
  destruct action as [| | | | |items|d]; try discriminate.
  destruct (py_eq_str _ "error") eqn:Hst; try discriminate.
  destruct (lookup_item "tool_name" d) as [tn|] eqn:Htn; try discriminate.
  destruct (lookup_item "input" d) as [inp|] eqn:Hin; try discriminate.
  intros [= <- <-]. exists d. auto.
Qed.

(** A Proposal in the format that the prompt asks for is a decision with
    an input, and reads back as itself. *)
Lemma proposal_json_proposal p :
  proposal_of (proposal_json p)
    = Some (PStr (capability_name p), PStr (proposal_input p)) /\
  parse_proposal (proposal_json p) = Some p.
Proof. destruct p. split; reflexivity. Qed.

(** An iteration that reaches a tool: the body records the step and
    either breaks on [success] or goes to the next step. *)
Lemma loop_body_invocation env task l action result :
  invocation env (tools (self_ l)) task (current_step l) = Some (action, result) ->
  loop_body py_repr env task l =
    if is_success result
    then Break (recorded env l action result)
    else Next (advanced (recorded env l action result)).
Proof.
  unfold invocation. intros H.
  destruct (oracle env _ _ _) as [msg|a] eqn:Ho; try discriminate.
  destruct (proposal_of a) as [[tn inp]|] eqn:Hp; try discriminate.
  destruct (resolve _ tn) as [tool|] eqn:Hr; try discriminate.
  injection H as <- <-.
  apply proposal_of_dict in Hp as (d & -> & Hst & Htn & Hin).
  unfold loop_body, _decide_next_action. rewrite Ho. cbn [py_get].
  rewrite Hst. cbn [py_getitem]. rewrite Htn.
  unfold resolve in Hr. rewrite Hr, Hin. cbn zeta.
  unfold is_success. destruct (py_eq_str _ "success"); reflexivity.
Qed.

(** An oracle call that raises: the body appends the decision failure
    and breaks. *)
Lemma loop_body_decision_failed env task l msg :
  oracle env (current_step l) task (map name (tools (self_ l))) = Raises msg ->
  loop_body py_repr env task l =
    Break (append_result l (error_entry "Failed to decide next action")).
Proof.
  intros Ho. unfold loop_body, _decide_next_action. rewrite Ho. reflexivity.
Qed.

(** A decision for a name that is not in the registry. *)
Lemma loop_body_not_found env task l action tool_name :
  oracle env (current_step l) task (map name (tools (self_ l))) = Returns action ->
  decided action = Some tool_name ->
  resolve (tools (self_ l)) tool_name = None ->
  loop_body py_repr env task l =
    Break (append_result l
             (error_entry ("Tool " +:+ py_format py_repr tool_name +:+ " not found"))).
Proof.
  intros Ho Hd Hr. unfold decided in Hd.
  destruct action as [| | | | |items|d]; try discriminate.
  destruct (py_eq_str _ "error") eqn:Hst; try discriminate.
  unfold loop_body, _decide_next_action. rewrite Ho. cbn [py_get].
  rewrite Hst. cbn [py_getitem]. rewrite Hd.
  unfold resolve in Hr. rewrite Hr. reflexivity.
Qed.

Lemma while_loop_next fuel env task l l' :
  current_step l < max_steps ->
  loop_body py_repr env task l = Next l' ->
  while_loop py_repr (S fuel) env task l = while_loop py_repr fuel env task l'.
Proof.
  intros Hlt Hb. cbn [while_loop].
  apply Nat.ltb_lt in Hlt. rewrite Hlt, Hb. reflexivity.
Qed.

Lemma while_loop_break fuel env task l l' :
  current_step l < max_steps ->
  loop_body py_repr env task l = Break l' ->
  while_loop py_repr (S fuel) env task l = Some (Returned (results l') (self_ l')).
Proof.
  intros Hlt Hb. cbn [while_loop].
  apply Nat.ltb_lt in Hlt. rewrite Hlt, Hb. reflexivity.
Qed.

Lemma while_loop_exhausted fuel env task l :
  max_steps <= current_step l ->
  while_loop py_repr (S fuel) env task l = Some (Returned (results l) (self_ l)).
Proof.
  intros Hge. cbn [while_loop].
  apply Nat.ltb_ge in Hge. rewrite Hge. reflexivity.
Qed.

(** [n] iterations in a row that go on: the loop is where it was, [n]
    steps further, with one step entry per iteration. *)
Lemma while_loop_goes_on env task n :
  forall l fuel,
    current_step l + n <= max_steps ->
    (forall i, current_step l <= i < current_step l + n ->
       goes_on env (tools (self_ l)) task i) ->
    exists l' steps,
      while_loop py_repr (n + fuel) env task l = while_loop py_repr fuel env task l' /\
      current_step l' = current_step l + n /\
      tools (self_ l') = tools (self_ l) /\
      results l' = results l ++ steps /\
      length steps = n /\
      forall j, j < n ->
        exists action result,
          invocation env (tools (self_ l)) task (current_step l + j)
            = Some (action, result) /\
          steps !! j = Some (step_entry (current_step l + j + 1) action result).
Proof.
  induction n as [|n IH]; intros l fuel Hle Hgo.
  - exists l, []. rewrite app_nil_r, Nat.add_0_r.
    repeat split; auto. intros j Hj. lia.
  - destruct (Hgo (current_step l)) as (action & result & Hinv & Hns); [lia|].
    pose proof (loop_body_invocation env task l action result Hinv) as Hb.
    rewrite Hns in Hb.
    set (l1 := advanced (recorded env l action result)) in *.
    destruct (IH l1 fuel) as (l' & steps & Hw & Hcs & Htools & Hres & Hlen & Hsteps).
    + cbn. lia.
    + intros i Hi. cbn in Hi. apply Hgo. lia.
    + exists l', (step_entry (current_step l + 1) action result :: steps).
      split; [|split; [|split; [|split; [|split]]]].
      * change (S n + fuel) with (S (n + fuel)).
        rewrite (while_loop_next _ env task l l1); [exact Hw | lia | exact Hb].
      * rewrite Hcs. cbn. lia.
      * rewrite Htools. reflexivity.
      * rewrite Hres. cbn. rewrite <- app_assoc. reflexivity.
      * cbn. rewrite Hlen. reflexivity.
      * intros [|j] Hj.
        -- exists action, result. rewrite Nat.add_0_r. split; [exact Hinv | reflexivity].
        -- destruct (Hsteps j) as (a & r & Ha & Hl); [lia|].
           exists a, r. cbn in Ha, Hl.
           replace (current_step l + S j) with (current_step l + 1 + j) by lia.
           split; [exact Ha | exact Hl].
Qed.

(** The run up to an iteration [n] that is reached because all the
    iterations before it went on. *)
Lemma execute_task_prefix env self task n :
  n <= max_steps ->
  (forall i, i < n -> goes_on env (tools self) task i) ->
  exists l' steps,
    execute_task py_repr env self task
      = while_loop py_repr (S max_steps - n) env task l' /\
    current_step l' = n /\
    tools (self_ l') = tools self /\
    results l' = steps /\
    length steps = n /\
    forall j, j < n ->
      exists action result,
        invocation env (tools self) task j = Some (action, result) /\
        steps !! j = Some (step_entry (j + 1) action result).
Proof.
  intros Hn Hgo.
  set (l0 := {| self_ := set_current_task self task; results := [];
                current_step := 0 |}).
  destruct (while_loop_goes_on env task n l0 (S max_steps - n))
    as (l' & steps & Hw & Hcs & Htools & Hres & Hlen & Hsteps).
  - cbn. exact Hn.
  - intros i Hi. cbn in Hi. apply Hgo. lia.
  - exists l', steps. unfold execute_task. fold l0.
    replace (S max_steps) with (n + (S max_steps - n)) at 1 by lia.
    repeat split; auto.
Qed.

(** What a pass through the body can do to the locals. *)
Lemma loop_body_shape env task l :
  match loop_body py_repr env task l with
  | Next l' => exists action result, l' = advanced (recorded env l action result)
  | Break l' =>
      (exists action result, l' = recorded env l action result) \/
      l' = append_result l (error_entry "Failed to decide next action") \/
      (exists tool_name,
          l' = append_result l
                 (error_entry ("Tool " +:+ py_format py_repr tool_name +:+ " not found")))
  | Throw e l' => l' = l
  end.
Proof.
  unfold loop_body.
  destruct (py_get _ "status") as [e|status]; [reflexivity|].
  destruct (py_eq_str status "error"); [right; left; reflexivity|].
  destruct (py_getitem _ "tool_name") as [e|tn]; [reflexivity|].
  destruct (find _ _) as [tool|]; [|right; right; exists tn; reflexivity].
  destruct (py_getitem _ "input") as [e|inp]; [reflexivity|].
  cbn zeta. destruct (py_eq_str _ "success").
  - left. eexists _, _. reflexivity.
  - eexists _, _. reflexivity.
Qed.

(** The loop ends: the fuel of [execute_task] is enough. *)
Lemma while_loop_total env task fuel :
  forall l, max_steps - current_step l < fuel ->
    exists o, while_loop py_repr fuel env task l = Some o.
Proof.
  induction fuel as [|fuel IH]; intros l Hf; [lia|].
  cbn [while_loop]. destruct (current_step l <? max_steps)%nat eqn:Hlt; [|eauto].
  apply Nat.ltb_lt in Hlt.
  pose proof (loop_body_shape env task l) as Hs.
  destruct (loop_body py_repr env task l) as [l'|l'|e l']; [|eauto|eauto].
  destruct Hs as (a & r & ->). apply IH.
  cbn [current_step advanced recorded]. lia.
Qed.

Lemma execute_task_total env self task :
  exists o, execute_task py_repr env self task = Some o.
Proof. apply while_loop_total. cbn [current_step]. lia. Qed.

(** Results and memory grow together, one entry each per invocation; a
    terminal entry goes to the results alone and ends the loop. *)
Lemma while_loop_trace env task mem0 fuel :
  forall l o news,
    while_loop py_repr fuel env task l = Some o ->
    memory (state (self_ l)) = mem0 ++ news ->
    Forall2 same_step (results l) news ->
    exists news',
      memory (state (agent_of o)) = mem0 ++ news' /\
      current_task (state (agent_of o)) = current_task (state (self_ l)) /\
      tools (agent_of o) = tools (self_ l) /\
      match o with
      | Returned trajectory _ =>
          exists steps last,
            trajectory = steps ++ last /\
            Forall2 same_step steps news' /\
            (last = [] \/ exists e, last = [e] /\ terminal_entry py_repr e)
      | Raised _ _ => True
      end.
Proof.
  induction fuel as [|fuel IH]; intros l o news Hw Hmem Hres; [discriminate|].
  cbn [while_loop] in Hw.
  destruct (current_step l <? max_steps)%nat.
  2:{ injection Hw as <-. exists news. cbn. repeat split; auto.
      exists (results l), []. rewrite app_nil_r. auto. }
  pose proof (loop_body_shape env task l) as Hs.
  assert (Hrec : forall action result,
    memory (state (self_ (recorded env l action result)))
      = mem0 ++ (news ++ [memory_entry (time_time env (current_step l)) action result]) /\
    Forall2 same_step (results (recorded env l action result))
      (news ++ [memory_entry (time_time env (current_step l)) action result])).
  { intros action result. split.
    - cbn. rewrite Hmem, <- app_assoc. reflexivity.
    - cbn. apply Forall2_app; [exact Hres|].
      constructor; [|constructor]. eexists _, _, _, _. split; reflexivity. }
  destruct (loop_body py_repr env task l) as [l'|l'|e l'].
  - destruct Hs as (a & r & ->). destruct (Hrec a r) as [Hm Hf].
    destruct (IH _ o _ Hw Hm Hf) as (news' & H1 & H2 & H3 & H4).
    exists news'. repeat split; auto.
  - injection Hw as <-. cbn [agent_of].
    destruct Hs as [(a & r & ->) | Hterm].
    + destruct (Hrec a r) as [Hm Hf]. eexists. repeat split; [exact Hm|].
      eexists _, []. rewrite app_nil_r. repeat split; [exact Hf | auto].
    + exists news. repeat split.
      * destruct Hterm as [-> | (tn & ->)]; exact Hmem.
      * destruct Hterm as [-> | (tn & ->)]; reflexivity.
      * destruct Hterm as [-> | (tn & ->)]; reflexivity.
      * destruct Hterm as [-> | (tn & ->)]; cbn [append_result results].
        -- eexists _, [_]. repeat split; [exact Hres|]. right.
           eexists. split; [reflexivity|]. left. reflexivity.
        -- eexists _, [_]. repeat split; [exact Hres|]. right.
           eexists. split; [reflexivity|]. right. exists tn. reflexivity.
  - injection Hw as <-. subst l'. exists news. cbn. auto.
Qed.

(** C2. When the first invocation of a tool returns a result tagged
    [success], [execute_task] returns right after recording that step:
    the trajectory is the one entry of step 1, with the oracle's action
    and the tool's result. *)
Theorem first_success_ends_the_run env self task action result :
  invocation env (tools self) task 0 = Some (action, result) ->
  tagged "success" result ->
  exists self',
    execute_task py_repr env self task
      = Some (Returned [step_entry 1 action result] self') /\
    length [step_entry 1 action result] = 1.
Proof.
  intros Hinv Htag.
  set (l0 := {| self_ := set_current_task self task; results := [];
                current_step := 0 |}).
  pose proof (loop_body_invocation env task l0 action result Hinv) as Hb.
  assert (Hs : is_success result = true).
  { unfold is_success. unfold tagged in Htag. rewrite Htag. reflexivity. }
  rewrite Hs in Hb.
  exists (self_ (recorded env l0 action result)). split; [|reflexivity].
  unfold execute_task. fold l0.
  rewrite (while_loop_break _ env task l0 _ (ltac:(cbn; unfold max_steps; lia)) Hb).
  reflexivity.
Qed.

(** C4, amended. When the first [k - 1] iterations go on and the oracle
    call of step [k] raises (the request fails or its content is not
    JSON), [execute_task] returns normally a trajectory of exactly [k]
    entries whose [k]-th entry is the decision failure. *)
Theorem oracle_failure_ends_the_run env self task k msg :
  1 <= k <= max_steps ->
  (forall i, i < k - 1 -> goes_on env (tools self) task i) ->
  oracle env (k - 1) task (map name (tools self)) = Raises msg ->
  exists trajectory self',
    execute_task py_repr env self task = Some (Returned trajectory self') /\
    length trajectory = k /\
    trajectory !! (k - 1) = Some (error_entry "Failed to decide next action").
Proof.
  intros Hk Hgo Hor.
  destruct (execute_task_prefix env self task (k - 1))
    as (l' & steps & Hex & Hcs & Htools & Hres & Hlen & _); [lia | exact Hgo |].
  rewrite <- Hcs, <- Htools in Hor.
  pose proof (loop_body_decision_failed env task l' msg Hor) as Hb.
  replace (S max_steps - (k - 1)) with (S (max_steps - (k - 1))) in Hex by lia.
  rewrite (while_loop_break _ env task l' _ (ltac:(lia)) Hb) in Hex.
  eexists _, _. split; [exact Hex|]. cbn [append_result results]. rewrite Hres.
  split.
  - rewrite length_app, Hlen. cbn. lia.
  - rewrite <- Hlen. apply list_lookup_middle. reflexivity.
Qed.

(** C6. A built-in tool whose client call raises hands back a result
    tagged [error] with the message; the body of the loop records the
    step in memory and in the results, adds one to [current_step], and
    the loop goes on from there; with the budget used up it returns the
    results it has. *)
Theorem capability_failure_is_recorded env task l action tool_name input tool msg fuel :
  current_step l < max_steps ->
  oracle env (current_step l) task (map name (tools (self_ l))) = Returns action ->
  proposal_of action = Some (tool_name, input) ->
  resolve (tools (self_ l)) tool_name = Some tool ->
  invocation_fails env (current_step l) input msg tool ->
  let result := [("status", PStr "error"); ("message", PStr msg)] in
  let l' := advanced (recorded env l action result) in
  function tool env (current_step l) input = result /\
  loop_body py_repr env task l = Next l' /\
  results l' = results l ++ [step_entry (current_step l + 1) action result] /\
  memory (state (self_ l')) =
    memory (state (self_ l)) ++
      [memory_entry (time_time env (current_step l)) action result] /\
  current_step l' = current_step l + 1 /\
  while_loop py_repr (S fuel) env task l = while_loop py_repr fuel env task l' /\
  (current_step l' = max_steps ->
   while_loop py_repr (S fuel) env task l' = Some (Returned (results l') (self_ l'))).
Proof.
  intros Hlt Hor Hp Hr Hfail result l'.
  assert (Hf : function tool env (current_step l) input = result).
  { destruct Hfail as [H|H|H]; cbn [function];
      [unfold _search_web | unfold _analyze_text | unfold _summarize_text];
      rewrite H; reflexivity. }
  assert (Hinv : invocation env (tools (self_ l)) task (current_step l)
                   = Some (action, result)).
  { unfold invocation. rewrite Hor, Hp, Hr, Hf. reflexivity. }
  pose proof (loop_body_invocation env task l action result Hinv) as Hb.
  change (is_success result) with false in Hb.
  repeat split; auto.
  - apply while_loop_next; assumption.
  - intros Hmax. apply while_loop_exhausted. lia.
Qed.

(** C10. In the trajectory that [execute_task] returns, the invoked steps
    come first and match, one for one and in order, the entries that the
    run appended to the memory; a terminal entry, if there is one, comes
    last, is a dict with the single key [error], and has no counterpart
    in the memory. *)
Theorem terminal_outcome_stays_out_of_memory env self task trajectory self' :
  execute_task py_repr env self task = Some (Returned trajectory self') ->
  exists steps last news,
    trajectory = steps ++ last /\
    memory (state self') = memory (state self) ++ news /\
    Forall2 same_step steps news /\
    (last = [] \/
     exists e, last = [e] /\ terminal_entry py_repr e /\
       (exists msg, e = [("error", PStr msg)]) /\
       lookup_item "step" e = None /\ lookup_item "action" e = None).
Proof.
  intros Hex. unfold execute_task in Hex.
  destruct (while_loop_trace env task (memory (state self)) _ _ _ [] Hex)
    as (news & Hmem & _ & _ & steps & last & Htr & Hf & Hlast).
  - cbn. rewrite app_nil_r. reflexivity.
  - constructor.
  - exists steps, last, news. repeat split; auto.
    destruct Hlast as [-> | (e & -> & Hterm)]; [left; reflexivity|].
    right. exists e. split; [reflexivity|]. split; [exact Hterm|].
    destruct Hterm as [-> | (tn & ->)]; (split; [eexists; reflexivity|]);
      split; reflexivity.
Qed.

(** C1, amended. [execute_task] works on the one [AgentState] of the
    agent it is called on: it sets [current_task] to the given task and
    keeps the memory it finds, so a run starts from the memory that the
    earlier runs on that agent left (empty for an agent just built), and
    it ends with that memory followed by its own entries. *)
Theorem execute_task_keeps_the_memory env self task :
  current_task (state (set_current_task self task)) = task /\
  memory (state (set_current_task self task)) = memory (state self) /\
  memory (state AIAgent_new) = [] /\
  exists o news,
    execute_task py_repr env self task = Some o /\
    current_task (state (agent_of o)) = task /\
    memory (state (agent_of o)) = memory (state self) ++ news.
Proof.
  repeat split.
  destruct (execute_task_total env self task) as [o Ho].
  unfold execute_task in Ho.
  destruct (while_loop_trace env task (memory (state self)) _ _ _ [] Ho)
    as (news & Hmem & Hcur & _).
  - cbn. rewrite app_nil_r. reflexivity.
  - constructor.
  - exists o, news. repeat split; auto.
Qed.

End LoopFacts.

(** * Properties of the store and of the task records *)

Lemma task_key_inj a b : task_key a = task_key b -> a = b.
Proof. unfold task_key. apply String.app_inj. Qed.

Lemma hset_lookup_ne now key key' mapping (db : redis) :
  key <> key' -> hset now key mapping db !! key' = db !! key'.
Proof.
  intros Hne. unfold hset.
  destruct (current now key db); rewrite lookup_insert_ne; auto.
Qed.

(** What [HSET] leaves under the key: the fields it sets, on top of the
    hash that was there, with the deadline that was there. *)
Lemma hset_lookup_eq now key mapping (db : redis) :
  hset now key mapping db !! key =
    Some {| fields := mapping ∪ hgetall now key db;
            deadline := current now key db ≫= deadline |}.
Proof.
  unfold hset, hgetall.
  destruct (current now key db) as [e|]; rewrite lookup_insert_eq; cbn.
  - reflexivity.
  - rewrite (right_id_L ∅ (∪)). reflexivity.
Qed.

Lemma expire_lookup_ne now key key' seconds (db : redis) :
  key <> key' -> expire now key seconds db !! key' = db !! key'.
Proof.
  intros Hne. unfold expire.
  destruct (current now key db); [rewrite lookup_insert_ne|]; auto.
Qed.

Lemma current_Some now key (db : redis) e :
  current now key db = Some e -> db !! key = Some e /\ live now e = true.
Proof.
  unfold current. destruct (db !! key) as [e'|]; [|discriminate].
  destruct (live now e') eqn:Hl; [|discriminate]. intros [= <-]. auto.
Qed.

(** [EXPIRE] does not touch the fields. *)
Lemma expire_fields now key key' seconds (db : redis) :
  fields <$> (expire now key seconds db !! key') = fields <$> (db !! key').
Proof.
  unfold expire. destruct (current now key db) as [e|] eqn:Hc; [|reflexivity].
  apply current_Some in Hc as [Hdb _].
  destruct (decide (key = key')) as [<-|Hne].
  - rewrite lookup_insert_eq, Hdb. reflexivity.
  - rewrite lookup_insert_ne by exact Hne. reflexivity.
Qed.

(** A command issued at the instant of the write sees what was written. *)
Lemma hgetall_hset now key mapping (db : redis) :
  hgetall now key (hset now key mapping db) = mapping ∪ hgetall now key db.
Proof.
  unfold hgetall at 1. unfold current. rewrite hset_lookup_eq.
  unfold live. cbn [deadline fields].
  destruct (current now key db) as [e|] eqn:Hc; cbn; [|reflexivity].
  apply current_Some in Hc as [_ Hl]. unfold live in Hl.
  destruct (deadline e); [rewrite Hl|]; reflexivity.
Qed.

Section RecordFacts.

Variable py_repr : pyval -> string.
Variable json_dumps : list pydict -> string.
Variable json_loads : string -> reply.
Variable redis_encode : pyval -> option string.

Local Abbreviation step := (step py_repr json_dumps json_loads redis_encode).
Local Abbreviation reachable := (reachable py_repr json_dumps json_loads redis_encode).

(** [create_task] either leaves the store alone and starts nothing, or
    writes the pending record, sets its deadline and starts the worker. *)
Lemma create_task_cases now task_id data (d d' : redis) resp started :
  create_task redis_encode now task_id data d = (d', resp, started) ->
  (d' = d /\ started = None) \/
  exists task text,
    started = Some (task_id, task) /\
    d' = expire now (task_key task_id) 3600
           (hset now (task_key task_id)
              {[ "task" := text; "status" := "pending";
                 "results" := ""; "error" := "" ]} d).
Proof.
  unfold create_task.
  destruct (negb (py_truthy data)); [intros [= <- <- <-]; auto|].
  destruct (py_contains "task" data) as [e|[|]]; try (intros [= <- <- <-]; auto).
  destruct (py_getitem data "task") as [e|task]; [intros [= <- <- <-]; auto|].
  destruct (redis_encode task) as [text|]; [|intros [= <- <- <-]; auto].
  intros [= <- <- <-]. right. eauto.
Qed.

Lemma record_status_hset now task_id mapping v (d : redis) :
  mapping !! "status" = Some v ->
  record_status (hset now (task_key task_id) mapping d) task_id = Some v.
Proof.
  intros Hm. unfold record_status. rewrite hset_lookup_eq. cbn [fields].
  apply lookup_union_Some_l. exact Hm.
Qed.

Lemma record_status_fields (d d' : redis) task_id :
  fields <$> (d' !! task_key task_id) = fields <$> (d !! task_key task_id) ->
  record_status d' task_id = record_status d task_id.
Proof.
  intros H. unfold record_status.
  destruct (d' !! task_key task_id), (d !! task_key task_id);
    cbn in H; try discriminate; [|reflexivity].
  injection H as ->. reflexivity.
Qed.

Lemma record_status_hset_ne now task_id task_id' mapping (d : redis) :
  task_id' <> task_id ->
  hset now (task_key task_id) mapping d !! task_key task_id' = d !! task_key task_id'.
Proof.
  intros Hne. apply hset_lookup_ne.
  intros Hk. apply task_key_inj in Hk. congruence.
Qed.

Lemma store_outcome_status now task_id o :
  exists mapping v,
    (forall d, store_outcome json_dumps now task_id o d
                 = hset now (task_key task_id) mapping d) /\
    mapping !! "status" = Some v /\
    (v = "completed" \/ v = "failed") /\
    (v = "completed" <-> exists trajectory self, o = Returned trajectory self).
Proof.
  destruct o as [trajectory self|e self]; cbn [store_outcome];
    eexists _, _; (split; [reflexivity|]); (split; [reflexivity|]); split; auto.
  - split; eauto.
  - split; [discriminate|]. intros (? & ? & [=]).
Qed.

(** One operation moves the status of a record along at most one arrow
    of the lifecycle, and keeps the store and the workers in agreement. *)
(** A write to the record of one task: the workers of the other tasks
    still agree with the store, whatever their stage. *)
Lemma agrees_frame s (d' : redis) (p : gmap string (pyval * pc)) task_id :
  agrees s ->
  (forall id, id <> task_id -> d' !! task_key id = db s !! task_key id) ->
  (forall id, id <> task_id -> p !! id = pool s !! id) ->
  forall id, id <> task_id ->
    match p !! id with
    | None => d' !! task_key id = None
    | Some (_, Spawned) => record_status d' id = Some "pending"
    | Some (_, Executing) => record_status d' id = Some "running"
    | Some (_, Finished) =>
        record_status d' id = Some "completed" \/ record_status d' id = Some "failed"
    end.
Proof.
  intros Hag Hdb Hp id Hne. specialize (Hag id). unfold status_of in Hag.
  rewrite (Hp id Hne). unfold record_status in *. rewrite (Hdb id Hne). exact Hag.
Qed.

(** One operation moves the status of a record along at most one arrow
    of the lifecycle, and keeps the store and the workers in agreement. *)
Lemma step_moves s s' :
  agrees s -> step s s' ->
  agrees s' /\
  forall task_id,
    status_of s task_id = status_of s' task_id \/
    lifecycle_step (status_of s task_id) (status_of s' task_id).
Proof.
  intros Hag Hstep.
  destruct Hstep as [s now tid data d' resp started Hfresh Hcreate
                    | s now tid description Hpc
                    | s now tid description env agent o Hpc Hrun
                    | s now tid resp Hq].
  - apply create_task_cases in Hcreate as [[-> ->] | (task & text & -> & ->)].
    { split; [exact Hag|]. intros id. left. reflexivity. }
    set (d1 := hset now (task_key tid)
                 {[ "task" := text; "status" := "pending";
                    "results" := ""; "error" := "" ]} (db s)).
    assert (Hnew : record_status (expire now (task_key tid) 3600 d1) tid
                   = Some "pending").
    { rewrite (record_status_fields d1) by apply expire_fields.
      apply record_status_hset. reflexivity. }
    assert (Hold : forall id, id <> tid ->
              expire now (task_key tid) 3600 d1 !! task_key id
              = db s !! task_key id).
    { intros id Hne. rewrite expire_lookup_ne.
      - apply record_status_hset_ne, Hne.
      - intros Hk. apply task_key_inj in Hk. congruence. }
    pose proof (Hag tid) as Htid. rewrite Hfresh in Htid.
    assert (Hnone : status_of s tid = None).
    { unfold status_of, record_status. rewrite Htid. reflexivity. }
    split.
    + intros id. unfold status_of. cbn [db pool spawn].
      destruct (decide (id = tid)) as [->|Hne].
      * rewrite lookup_insert_eq. exact Hnew.
      * apply (agrees_frame s _ _ tid Hag Hold); [|exact Hne].
        intros id' Hne'. apply lookup_insert_ne. congruence.
    + intros id. destruct (decide (id = tid)) as [->|Hne].
      * right. rewrite Hnone. unfold status_of. cbn [db]. rewrite Hnew. constructor.
      * left. unfold status_of, record_status. cbn [db].
        rewrite (Hold id Hne). reflexivity.
  - pose proof (Hag tid) as Htid. rewrite Hpc in Htid.
    assert (Hnew : record_status (store_running now tid (db s)) tid = Some "running")
      by (apply record_status_hset; reflexivity).
    assert (Hold : forall id, id <> tid ->
              store_running now tid (db s) !! task_key id = db s !! task_key id)
      by (intros id Hne; apply record_status_hset_ne, Hne).
    split.
    + intros id. unfold status_of. cbn [db pool].
      destruct (decide (id = tid)) as [->|Hne].
      * rewrite lookup_insert_eq. exact Hnew.
      * apply (agrees_frame s _ _ tid Hag Hold); [|exact Hne].
        intros id' Hne'. apply lookup_insert_ne. congruence.
    + intros id. destruct (decide (id = tid)) as [->|Hne].
      * right. rewrite Htid. unfold status_of. cbn [db]. rewrite Hnew. constructor.
      * left. unfold status_of, record_status. cbn [db].
        rewrite (Hold id Hne). reflexivity.
  - pose proof (Hag tid) as Htid. rewrite Hpc in Htid.
    destruct (store_outcome_status now tid o) as (mapping & v & Hso & Hm & Hv & _).
    assert (Hnew : record_status (store_outcome json_dumps now tid o (db s)) tid
                   = Some v)
      by (rewrite Hso; apply record_status_hset; exact Hm).
    assert (Hold : forall id, id <> tid ->
              store_outcome json_dumps now tid o (db s) !! task_key id
              = db s !! task_key id)
      by (intros id Hne; rewrite Hso; apply record_status_hset_ne, Hne).
    split.
    + intros id. unfold status_of. cbn [db pool].
      destruct (decide (id = tid)) as [->|Hne].
      * rewrite lookup_insert_eq, Hnew. destruct Hv as [-> | ->]; auto.
      * apply (agrees_frame s _ _ tid Hag Hold); [|exact Hne].
        intros id' Hne'. apply lookup_insert_ne. congruence.
    + intros id. destruct (decide (id = tid)) as [->|Hne].
      * right. rewrite Htid. unfold status_of. cbn [db]. rewrite Hnew.
        destruct Hv as [-> | ->]; constructor.
      * left. unfold status_of, record_status. cbn [db].
        rewrite (Hold id Hne). reflexivity.
  - split; [exact Hag|]. intros id. left. reflexivity.
Qed.

Lemma boot_agrees : agrees boot.
Proof. intros id. reflexivity. Qed.

Lemma rtc_step_agrees s s' : agrees s -> rtc step s s' -> agrees s'.
Proof.
  intros Hag Hrtc. induction Hrtc as [|s s1 s2 Hstep _ IH]; [exact Hag|].
  apply IH. apply (step_moves s s1 Hag Hstep).
Qed.

Lemma reachable_agrees s : reachable s -> agrees s.
Proof. apply rtc_step_agrees, boot_agrees. Qed.

Lemma terminal_has_no_arrow st st' :
  terminal st -> ~ lifecycle_step (Some st) st'.
Proof. intros [-> | ->] H; inversion H. Qed.

(** C7. Every operation of the service leaves the status of a record
    where it is or moves it along one arrow of [pending -> running ->
    completed | failed]: a record starts as [pending], written by the
    submission, and once it is [completed] or [failed] no run of the
    service changes its status again. *)
Theorem lifecycle_is_one_way s s' :
  reachable s ->
  step s s' ->
  (forall task_id, status_of boot task_id = None) /\
  (forall task_id,
     status_of s task_id = status_of s' task_id \/
     lifecycle_step (status_of s task_id) (status_of s' task_id)) /\
  (forall s'' task_id st,
     rtc step s' s'' ->
     status_of s' task_id = Some st -> terminal st ->
     status_of s'' task_id = Some st).
Proof.
  intros Hreach Hstep.
  pose proof (reachable_agrees s Hreach) as Hag.
  destruct (step_moves s s' Hag Hstep) as [Hag' Hmove].
  split; [reflexivity|]. split; [exact Hmove|].
  intros s'' id st Hrtc. revert Hag'. clear Hmove Hstep.
  induction Hrtc as [|s1 s2 s3 Hst _ IH]; intros Hag1 Hs Hterm; [exact Hs|].
  destruct (step_moves s1 s2 Hag1 Hst) as [Hag2 Hmove2].
  apply IH; [exact Hag2 | | exact Hterm].
  destruct (Hmove2 id) as [<- | Harrow]; [exact Hs|].
  rewrite Hs in Harrow. exfalso. exact (terminal_has_no_arrow _ _ Hterm Harrow).
Qed.

(** C8. A snapshot of a retained record carries [results] only when the
    stored status is [completed] and [error] only when it is [failed];
    it never carries both, and for a [pending] or [running] record it
    carries neither. *)
Theorem snapshot_matches_state now task_id (d : redis) body :
  get_task_status json_loads now task_id d = Response 200 body ->
  let status := hgetall now (task_key task_id) d !! "status" in
  (lookup_item "results" body <> None -> status = Some "completed") /\
  (lookup_item "error" body <> None -> status = Some "failed") /\
  ~ (lookup_item "results" body <> None /\ lookup_item "error" body <> None) /\
  (status = Some "pending" \/ status = Some "running" ->
   lookup_item "results" body = None /\ lookup_item "error" body = None).
Proof.
  unfold get_task_status.
  set (task_data := hgetall now (task_key task_id) d).
  destruct (decide (task_data = ∅)) as [_|_]; [intros [=]|].
  destruct (decide (task_data !! "status" = Some "completed")) as [Hc|Hc].
  - destruct (json_loads _) as [msg|v]; [intros [=]|].
    destruct (decide (task_data !! "status" = Some "failed")) as [Hf|Hf];
      [rewrite Hc in Hf; discriminate Hf|].
    intros [= <-]; cbn. split; [|split; [|split]].
    + intros _. exact Hc.
    + intros H. congruence.
    + intros [_ H]. congruence.
    + intros [H | H]; rewrite Hc in H; discriminate H.
  - destruct (decide (task_data !! "status" = Some "failed")) as [Hf|Hf];
      intros [= <-]; cbn; (split; [|split; [|split]]).
    + intros H. congruence.
    + intros _. exact Hf.
    + intros [H _]. congruence.
    + intros [H | H]; rewrite Hf in H; discriminate H.
    + intros H. congruence.
    + intros H. congruence.
    + intros [H _]. congruence.
    + intros _. split; reflexivity.
Qed.

(** *** Retention *)

Lemma expire_after_hset now key seconds mapping (d : redis) :
  expire now key seconds (hset now key mapping d) !! key =
    Some {| fields := mapping ∪ hgetall now key d;
            deadline := Some (now + seconds)%Z |}.
Proof.
  unfold expire.
  assert (Hcur : current now key (hset now key mapping d) =
            Some {| fields := mapping ∪ hgetall now key d;
                    deadline := current now key d ≫= deadline |}).
  { unfold current at 1. rewrite hset_lookup_eq. unfold live. cbn [deadline].
    destruct (current now key d) as [e|] eqn:Hc; cbn; [|reflexivity].
    apply current_Some in Hc as [_ Hl]. unfold live in Hl.
    destruct (deadline e); [rewrite Hl|]; reflexivity. }
  rewrite Hcur, lookup_insert_eq. reflexivity.
Qed.

(** [HSET] on a key that is still there. *)
Lemma hset_live now key mapping (d : redis) e :
  d !! key = Some e -> live now e = true ->
  hset now key mapping d !! key =
    Some {| fields := mapping ∪ fields e; deadline := deadline e |}.
Proof.
  intros Hdb Hl. unfold hset, current. rewrite Hdb, Hl.
  apply lookup_insert_eq.
Qed.

(** A deadline that [HSET] leaves on a key is one that it found there and
    that had not passed. *)
Lemma hset_keeps_deadline now key mapping (d : redis) e limit :
  hset now key mapping d !! key = Some e ->
  deadline e = Some limit ->
  (now < limit)%Z /\ exists e0, d !! key = Some e0 /\ deadline e0 = Some limit.
Proof.
  rewrite hset_lookup_eq. intros [= <-]. cbn [deadline].
  destruct (current now key d) as [e0|] eqn:Hc; cbn; [|discriminate].
  intros Hd. apply current_Some in Hc as [Hdb Hl].
  unfold live in Hl. rewrite Hd in Hl. apply Z.ltb_lt in Hl. eauto.
Qed.

Lemma hset_entry now key mapping (d : redis) :
  exists e, hset now key mapping d !! key = Some e /\ mapping ⊆ fields e.
Proof.
  eexists. split; [apply hset_lookup_eq|]. cbn [fields].
  apply map_union_subseteq_l.
Qed.

(** Reading a record that has no deadline. *)
Lemma hgetall_no_deadline t key (d : redis) e :
  d !! key = Some e -> deadline e = None -> hgetall t key d = fields e.
Proof.
  intros Hdb Hd. unfold hgetall, current, live. rewrite Hdb, Hd. reflexivity.
Qed.

(** Reading a record on either side of its deadline. *)
Lemma hgetall_deadline t key (d : redis) e limit :
  d !! key = Some e -> deadline e = Some limit ->
  hgetall t key d = if (t <? limit)%Z then fields e else ∅.
Proof.
  intros Hdb Hd. unfold hgetall, current, live. rewrite Hdb, Hd.
  destruct (t <? limit)%Z; reflexivity.
Qed.

Lemma get_task_status_gone t task_id (d : redis) :
  hgetall t (task_key task_id) d = ∅ ->
  get_task_status json_loads t task_id d
    = Response 404 [("error", PStr "Task not found")].
Proof.
  intros H. unfold get_task_status. rewrite H.
  destruct (decide (∅ = ∅)) as [_|Hne]; [reflexivity | contradiction].
Qed.


(** C9, where the code departs from it.  A worker that writes its outcome
    an hour or more after the submission finds the key gone; its [HSET]
    creates the key again, this time without a deadline, and from then on
    every query, at whatever instant, finds a record in a terminal state
    instead of 404. *)
Theorem late_outcome_is_kept_forever now t_start t_end env agent task_id data
    (d d1 : redis) resp task :
  create_task redis_encode now task_id data d = (d1, resp, Some (task_id, task)) ->
  (now + 3600 <= t_end)%Z ->
  let d3 := (execute_task_async py_repr json_dumps t_start t_end env agent
               task_id task d1).1 in
  forall t,
    (exists v, terminal v /\ hgetall t (task_key task_id) d3 !! "status" = Some v) /\
    get_task_status json_loads t task_id d3
      <> Response 404 [("error", PStr "Task not found")].
Proof.
  intros Hcreate Hlate d3 t.
  apply create_task_cases in Hcreate as [[_ [=]] | (task' & text & _ & ->)].
  subst d3. unfold execute_task_async.
  destruct (execute_task_total py_repr env agent task) as [o Ho].
  rewrite Ho. cbn [fst].
  destruct (store_outcome_status t_end task_id o) as (m & v & Hso & Hm & Hv & _).
  rewrite Hso.
  destruct (hset_entry t_end (task_key task_id) m
              (store_running t_start task_id
                 (expire now (task_key task_id) 3600
                    (hset now (task_key task_id)
                       {[ "task" := text; "status" := "pending";
                          "results" := ""; "error" := "" ]} d))))
    as (e & Hdb & Hsub).
  assert (Hnone : deadline e = None).
  { destruct (deadline e) as [limit|] eqn:Hd; [exfalso|reflexivity].
    destruct (hset_keeps_deadline _ _ _ _ _ _ Hdb Hd) as (Hlt & e1 & Hdb1 & Hd1).
    unfold store_running in Hdb1.
    destruct (hset_keeps_deadline _ _ _ _ _ _ Hdb1 Hd1) as (_ & e0 & Hdb0 & Hd0).
    rewrite expire_after_hset in Hdb0. injection Hdb0 as <-.
    cbn [deadline] in Hd0. injection Hd0 as <-. lia. }
  assert (Hst : hgetall t (task_key task_id)
                  (hset t_end (task_key task_id) m
                     (store_running t_start task_id
                        (expire now (task_key task_id) 3600
                           (hset now (task_key task_id)
                              {[ "task" := text; "status" := "pending";
                                 "results" := ""; "error" := "" ]} d))))
                !! "status" = Some v).
  { rewrite (hgetall_no_deadline _ _ _ _ Hdb Hnone).
    eapply lookup_weaken; [exact Hm | exact Hsub]. }
  split.
  - exists v. split; [exact Hv | exact Hst].
  - unfold get_task_status.
    destruct (decide (_ = ∅)) as [Hempty|_].
    + rewrite Hempty, lookup_empty in Hst. discriminate Hst.
    + destruct (decide _); [destruct (json_loads _)|];
        try destruct (decide _); discriminate.
Qed.

(** The worker on its own: a run of the agent that returns is stored as
    [completed], whatever the trajectory holds. *)
Lemma execute_task_async_completed t_start t_end env agent task_id task
    (d : redis) trajectory agent' :
  execute_task py_repr env agent task = Some (Returned trajectory agent') ->
  hgetall t_end (task_key task_id)
    (execute_task_async py_repr json_dumps t_start t_end env agent task_id task d).1
    !! "status" = Some "completed".
Proof.
  intros Hex. unfold execute_task_async. rewrite Hex. cbn [fst store_outcome].
  rewrite hgetall_hset. apply lookup_union_Some_l. reflexivity.
Qed.

Lemma tagged_error_goes_on result :
  tagged "error" result -> is_success result = false.
Proof. unfold tagged, is_success. intros ->. reflexivity. Qed.

(** C3. When the oracle proposes a registered tool at every step and
    every invocation returns a result tagged [error], [execute_task]
    returns a trajectory of exactly [max_steps] = 5 entries, each of them
    a step whose result is tagged [error], and the worker stores the
    record as [completed]. *)
Theorem all_errors_use_the_whole_budget env agent task t_start t_end task_id
    (d : redis) :
  (forall i, i < max_steps ->
     exists action result,
       invocation env (tools agent) task i = Some (action, result) /\
       tagged "error" result) ->
  exists trajectory agent',
    execute_task py_repr env agent task = Some (Returned trajectory agent') /\
    length trajectory = max_steps /\
    max_steps = 5 /\
    Forall (fun e => exists n action result,
                e = step_entry n action result /\ tagged "error" result)
           trajectory /\
    hgetall t_end (task_key task_id)
      (execute_task_async py_repr json_dumps t_start t_end env agent
         task_id task d).1 !! "status" = Some "completed".
Proof.
  intros Herr.
  destruct (execute_task_prefix py_repr env agent task max_steps)
    as (l' & steps & Hex & Hcs & _ & Hres & Hlen & Hsteps); [lia | |].
  { intros i Hi. destruct (Herr i Hi) as (a & r & Hinv & Htag).
    exists a, r. split; [exact Hinv | apply tagged_error_goes_on, Htag]. }
  replace (S max_steps - max_steps) with 1 in Hex by lia.
  rewrite while_loop_exhausted in Hex by lia.
  exists (results l'), (self_ l'). split; [exact Hex|].
  rewrite Hres. split; [exact Hlen|]. split; [reflexivity|]. split.
  - apply Forall_lookup. intros j e Hj.
    assert (Hlt : j < max_steps).
    { rewrite <- Hlen. eapply lookup_lt_Some, Hj. }
    destruct (Hsteps j Hlt) as (a & r & Hinv & Hl).
    destruct (Herr j Hlt) as (a' & r' & Hinv' & Htag).
    rewrite Hinv in Hinv'. injection Hinv' as <- <-.
    rewrite Hj in Hl. injection Hl as ->. eauto.
  - eapply execute_task_async_completed, Hex.
Qed.

(** C5. When the first [k - 1] iterations go on and the oracle's output
    at step [k] names a tool that is not registered, [execute_task]
    returns without another attempt: the trajectory has [k] entries, the
    last of which says that the requested tool was not found, and the
    worker stores the record as [completed]. *)
Theorem unknown_tool_ends_the_run env agent task k action requested
    t_start t_end task_id (d : redis) :
  1 <= k <= max_steps ->
  (forall i, i < k - 1 -> goes_on env (tools agent) task i) ->
  oracle env (k - 1) task (map name (tools agent)) = Returns action ->
  decided action = Some (PStr requested) ->
  resolve (tools agent) (PStr requested) = None ->
  exists trajectory agent',
    execute_task py_repr env agent task = Some (Returned trajectory agent') /\
    length trajectory = k /\
    last trajectory = Some (error_entry ("Tool " +:+ requested +:+ " not found")) /\
    hgetall t_end (task_key task_id)
      (execute_task_async py_repr json_dumps t_start t_end env agent
         task_id task d).1 !! "status" = Some "completed".
Proof.
  intros Hk Hgo Hor Hdec Hres.
  destruct (execute_task_prefix py_repr env agent task (k - 1))
    as (l' & steps & Hex & Hcs & Htools & Hsteps & Hlen & _); [lia | exact Hgo |].
  rewrite <- Hcs, <- Htools in Hor. rewrite <- Htools in Hres.
  pose proof (loop_body_not_found py_repr env task l' action _ Hor Hdec Hres) as Hb.
  replace (S max_steps - (k - 1)) with (S (max_steps - (k - 1))) in Hex by lia.
  rewrite (while_loop_break _ _ env task l' _ (ltac:(lia)) Hb) in Hex.
  eexists _, _. split; [exact Hex|]. cbn [append_result results py_format].
  rewrite Hsteps. split; [|split].
  - rewrite length_app, Hlen. cbn. lia.
  - apply last_snoc.
  - eapply execute_task_async_completed, Hex.
Qed.

End RecordFacts.

(** * The properties on the sample runs *)

Example sample_first_success :
  execute_task sample_repr env_search_answers AIAgent_new (PStr "find news about X")
  = Some (Returned
            [step_entry 1 search_news
               [("status", PStr "success");
                ("results", PDict [("results", PList [])])]]
            {| state :=
                 {| current_task := PStr "find news about X";
                    memory := [memory_entry 0 search_news
                                 [("status", PStr "success");
                                  ("results", PDict [("results", PList [])])]];
                    context := [] |};
               tools := _initialize_tools |}).
Proof. reflexivity. Qed.

(** C1 as stated fails: the second run on the module's agent starts with
    the memory entry that the first run appended. *)
Lemma memory_is_shared_between_runs :
  exists trajectory agent1,
    execute_task sample_repr env_search_answers AIAgent_new (PStr "first task")
      = Some (Returned trajectory agent1) /\
    execute_task sample_repr env_search_down agent1 (PStr "second task")
      = while_loop sample_repr (S max_steps) env_search_down (PStr "second task")
          {| self_ := set_current_task agent1 (PStr "second task");
             results := []; current_step := 0 |} /\
    memory (state (set_current_task agent1 (PStr "second task")))
      = [memory_entry 0 search_news search_succeeded] /\
    memory (state (set_current_task agent1 (PStr "second task"))) <> [].
Proof.
  eexists _, _. split; [reflexivity|]. split; [reflexivity|].
  split; [reflexivity | discriminate].
Qed.

(** C4 as stated fails: an oracle output that is JSON but not a Proposal
    (here the empty object) makes [execute_task] raise [KeyError]; no
    trajectory comes back and the worker stores the record as [failed]. *)
Lemma unparseable_output_raises :
  oracle env_empty_object 0 (PStr "t") (map name (tools AIAgent_new))
    = Returns (PDict []) /\
  parse_proposal (PDict []) = None /\
  execute_task sample_repr env_empty_object AIAgent_new (PStr "t")
    = Some (Raised (KeyError "tool_name") (set_current_task AIAgent_new (PStr "t"))) /\
  hgetall 2 (task_key "u1")
    (execute_task_async sample_repr sample_dumps 1 2 env_empty_object AIAgent_new
       "u1" (PStr "t") store_submitted).1
    = {[ "task" := "find news about X"; "status" := "failed";
         "results" := ""; "error" := "'tool_name'" ]}.
Proof.
  split; [reflexivity|]. split; [reflexivity|]. split; [reflexivity|].
  vm_compute. reflexivity.
Qed.

Lemma first_success_ends_the_run_witness :
  (invocation env_search_answers (tools AIAgent_new) (PStr "find news about X") 0
     = Some (search_news, search_succeeded) /\
   tagged "success" search_succeeded) /\
  exists self',
    execute_task sample_repr env_search_answers AIAgent_new (PStr "find news about X")
      = Some (Returned [step_entry 1 search_news search_succeeded] self') /\
    length [step_entry 1 search_news search_succeeded] = 1.
Proof.
  assert (H1 : invocation env_search_answers (tools AIAgent_new)
                 (PStr "find news about X") 0
               = Some (search_news, search_succeeded)) by reflexivity.
  assert (H2 : tagged "success" search_succeeded) by reflexivity.
  split; [split; assumption|].
  exact (first_success_ends_the_run sample_repr _ _ _ _ _ H1 H2).
Defined.

Lemma all_errors_use_the_whole_budget_witness :
  exists trajectory agent',
    execute_task sample_repr env_search_down AIAgent_new (PStr "find news about X")
      = Some (Returned trajectory agent') /\
    length trajectory = max_steps /\
    max_steps = 5 /\
    Forall (fun e => exists n action result,
                e = step_entry n action result /\ tagged "error" result)
           trajectory /\
    hgetall 2 (task_key "u1")
      (execute_task_async sample_repr sample_dumps 1 2 env_search_down AIAgent_new
         "u1" (PStr "find news about X") store_submitted).1 !! "status"
      = Some "completed".
Proof.
  apply (all_errors_use_the_whole_budget sample_repr sample_dumps).
  intros i _. exists search_news, search_timed_out. split; reflexivity.
Defined.

Lemma oracle_failure_ends_the_run_witness :
  exists trajectory self',
    execute_task sample_repr env_oracle_fails_third AIAgent_new (PStr "t")
      = Some (Returned trajectory self') /\
    length trajectory = 3 /\
    trajectory !! (3 - 1) = Some (error_entry "Failed to decide next action").
Proof.
  apply (oracle_failure_ends_the_run sample_repr env_oracle_fails_third
           AIAgent_new (PStr "t") 3 "rate limit").
  - unfold max_steps. lia.
  - intros i Hi. exists search_news, search_timed_out.
    destruct i as [|[|i]]; [split; reflexivity | split; reflexivity | cbn in Hi; lia].
  - reflexivity.
Defined.

Lemma unknown_tool_ends_the_run_witness :
  exists trajectory agent',
    execute_task sample_repr env_unknown_tool AIAgent_new (PStr "t")
      = Some (Returned trajectory agent') /\
    length trajectory = 1 /\
    last trajectory = Some (error_entry ("Tool " +:+ "nonexistent" +:+ " not found")) /\
    hgetall 2 (task_key "u1")
      (execute_task_async sample_repr sample_dumps 1 2 env_unknown_tool AIAgent_new
         "u1" (PStr "t") store_submitted).1 !! "status"
      = Some "completed".
Proof.
  apply (unknown_tool_ends_the_run sample_repr sample_dumps env_unknown_tool
           AIAgent_new (PStr "t") 1 ask_nonexistent "nonexistent").
  - unfold max_steps. lia.
  - intros i Hi. cbn in Hi. lia.
  - reflexivity.
  - reflexivity.
  - reflexivity.
Defined.

Lemma capability_failure_is_recorded_witness :
  let l := {| self_ := AIAgent_new; results := []; current_step := 0 |} in
  let l' := advanced (recorded env_search_down l search_news search_timed_out) in
  loop_body sample_repr env_search_down (PStr "t") l = Next l' /\
  current_step l' = 1 /\
  while_loop sample_repr 6 env_search_down (PStr "t") l
    = while_loop sample_repr 5 env_search_down (PStr "t") l'.
Proof.
  intros l l'.
  pose proof (capability_failure_is_recorded sample_repr env_search_down (PStr "t")
                l search_news (PStr "web_search") (PStr "X news")
                web_search_tool "timeout" 5) as H.
  assert (H0 : current_step l < max_steps) by (cbn; unfold max_steps; lia).
  assert (H1 : oracle env_search_down (current_step l) (PStr "t")
                 (map name (tools (self_ l))) = Returns search_news) by reflexivity.
  assert (H2 : proposal_of search_news = Some (PStr "web_search", PStr "X news"))
    by reflexivity.
  assert (H3 : resolve (tools (self_ l)) (PStr "web_search") = Some web_search_tool)
    by reflexivity.
  assert (H4 : invocation_fails env_search_down (current_step l) (PStr "X news")
                 "timeout" web_search_tool)
    by (apply search_fails; reflexivity).
  destruct (H H0 H1 H2 H3 H4) as (_ & Hb & _ & _ & Hc & Hw & _).
  split; [exact Hb|]. split; [exact Hc | exact Hw].
Defined.

Lemma terminal_outcome_stays_out_of_memory_witness :
  exists trajectory self',
    execute_task sample_repr env_oracle_fails_third AIAgent_new (PStr "t")
      = Some (Returned trajectory self') /\
    exists steps last news,
      trajectory = steps ++ last /\
      memory (state self') = memory (state AIAgent_new) ++ news /\
      Forall2 same_step steps news /\
      (last = [] \/
       exists e, last = [e] /\ terminal_entry sample_repr e /\
         (exists msg, e = [("error", PStr msg)]) /\
         lookup_item "step" e = None /\ lookup_item "action" e = None).
Proof.
  eexists _, _.
  refine ((fun H => conj H
             (terminal_outcome_stays_out_of_memory sample_repr _ _ _ _ _ H)) _).
  reflexivity.
Defined.

Lemma lifecycle_is_one_way_witness :
  reachable sample_repr sample_dumps sample_loads sample_encode boot /\
  step sample_repr sample_dumps sample_loads sample_encode boot sample_submitted /\
  (status_of boot "u1" = status_of sample_submitted "u1" \/
   lifecycle_step (status_of boot "u1") (status_of sample_submitted "u1")).
Proof.
  assert (H1 : reachable sample_repr sample_dumps sample_loads sample_encode boot)
    by apply rtc_refl.
  assert (H2 : step sample_repr sample_dumps sample_loads sample_encode
                 boot sample_submitted).
  { apply (step_create sample_repr sample_dumps sample_loads sample_encode
             boot 0 "u1" news_request store_submitted
             (Response 200 [("task_id", PStr "u1");
                            ("status", PStr "pending");
                            ("message", PStr "Task created successfully")])
             (Some ("u1", PStr "find news about X"))); reflexivity. }
  split; [exact H1|]. split; [exact H2|].
  exact (proj1 (proj2 (lifecycle_is_one_way sample_repr sample_dumps sample_loads
                         sample_encode boot sample_submitted H1 H2)) "u1").
Defined.

Lemma snapshot_matches_state_witness :
  let d := (execute_task_async sample_repr sample_dumps 1 2 env_search_answers
              AIAgent_new "u1" (PStr "find news about X") store_submitted).1 in
  let body := [("task_id", PStr "u1"); ("task", PStr "find news about X");
               ("status", PStr "completed"); ("results", PStr "[...]")] in
  get_task_status sample_loads 5 "u1" d = Response 200 body /\
  (lookup_item "results" body <> None ->
   hgetall 5 (task_key "u1") d !! "status" = Some "completed").
Proof.
  intros d body.
  assert (H : get_task_status sample_loads 5 "u1" d = Response 200 body)
    by (vm_compute; reflexivity).
  split; [exact H|].
  exact (proj1 (snapshot_matches_state sample_loads 5 "u1" d body H)).
Defined.

Lemma late_outcome_is_kept_forever_witness :
  (create_task sample_encode 0 "u1" news_request ∅
     = (store_submitted,
        Response 200 [("task_id", PStr "u1");
                      ("status", PStr "pending");
                      ("message", PStr "Task created successfully")],
        Some ("u1", PStr "find news about X")) /\
   (0 + 3600 <= 4000)%Z) /\
  ((exists v, terminal v /\
      hgetall 86400 (task_key "u1")
        (execute_task_async sample_repr sample_dumps 1 4000 env_search_down
           AIAgent_new "u1" (PStr "find news about X") store_submitted).1
        !! "status" = Some v) /\
   get_task_status sample_loads 86400 "u1"
     (execute_task_async sample_repr sample_dumps 1 4000 env_search_down
        AIAgent_new "u1" (PStr "find news about X") store_submitted).1
     <> Response 404 [("error", PStr "Task not found")]).
Proof.
  assert (H1 : create_task sample_encode 0 "u1" news_request ∅
     = (store_submitted,
        Response 200 [("task_id", PStr "u1");
                      ("status", PStr "pending");
                      ("message", PStr "Task created successfully")],
        Some ("u1", PStr "find news about X"))) by reflexivity.
  assert (H2 : (0 + 3600 <= 4000)%Z) by lia.
  split; [split; assumption|].
  exact (late_outcome_is_kept_forever sample_repr sample_dumps sample_loads
           sample_encode 0 1 4000 env_search_down AIAgent_new "u1" news_request
           ∅ store_submitted _ _ H1 H2 86400).
Defined.

(** * Further properties of the decision loop *)

Section MoreLoopFacts.

Variable py_repr : pyval -> string.

(** How a pass through the body ends, with the tag of the result. *)
Lemma loop_body_outcome env task l :
  match loop_body py_repr env task l with
  | Next l' =>
      exists action result,
        l' = advanced (recorded env l action result) /\ is_success result = false
  | Break l' =>
      (exists action result,
          l' = recorded env l action result /\ is_success result = true) \/
      (exists e, l' = append_result l e /\ terminal_entry py_repr e)
  | Throw e l' =>
      l' = l /\
      exists v,
        oracle env (current_step l) task (map name (tools (self_ l))) = Returns v /\
        fault_of v e
  end.
Proof.
  unfold loop_body, _decide_next_action.
  destruct (oracle env _ _ _) as [msg|v] eqn:Ho.
  { cbn. right. eexists. split; [reflexivity|]. left. reflexivity. }
  destruct v as [| | | | |items|d];
    try (cbn; split; [reflexivity|]; eexists; split; [reflexivity|]; reflexivity).
  cbn [py_get py_getitem].
  destruct (py_eq_str _ "error").
  { right. eexists. split; [reflexivity|]. left. reflexivity. }
  destruct (lookup_item "tool_name" d) as [tn|] eqn:Htn.
  2:{ split; [reflexivity|]. eexists. split; [reflexivity|]. left. auto. }
  destruct (find _ _) as [tool|].
  2:{ right. eexists. split; [reflexivity|]. right. exists tn. reflexivity. }
  destruct (lookup_item "input" d) as [inp|] eqn:Hin.
  2:{ split; [reflexivity|]. eexists. split; [reflexivity|]. right. auto. }
  cbn zeta. fold (is_success (function tool env (current_step l) inp)).
  destruct (is_success _) eqn:Hs.
  - left. eexists _, _. split; [reflexivity | exact Hs].
  - eexists _, _. split; [reflexivity | exact Hs].
Qed.

Lemma numbered_snoc entries action result :
  numbered entries -> is_success result = false ->
  numbered (entries ++ [step_entry (length entries + 1) action result]).
Proof.
  intros Hn Hs j e Hj.
  destruct (decide (j < length entries)) as [Hlt|Hge].
  - rewrite lookup_app_l in Hj by exact Hlt. apply Hn, Hj.
  - rewrite lookup_app_r in Hj by lia.
    destruct (j - length entries) as [|n] eqn:Hd; [|destruct n; discriminate Hj].
    injection Hj as <-. replace j with (length entries) by lia. eauto.
Qed.

Lemma while_loop_shaped env task fuel :
  forall l trajectory self',
    while_loop py_repr fuel env task l = Some (Returned trajectory self') ->
    length (results l) = current_step l ->
    current_step l <= max_steps ->
    numbered (results l) ->
    shaped py_repr trajectory.
Proof.
  induction fuel as [|fuel IH]; intros l trajectory self' Hw Hlen Hle Hnum;
    [discriminate|].
  cbn [while_loop] in Hw.
  destruct (current_step l <? max_steps)%nat eqn:Hlt.
  2:{ injection Hw as <- <-. apply Nat.ltb_ge in Hlt.
      split; [lia|]. exists (results l). split; [exact Hnum|]. left.
      split; [reflexivity | lia]. }
  apply Nat.ltb_lt in Hlt.
  pose proof (loop_body_outcome env task l) as Hb.
  destruct (loop_body py_repr env task l) as [l'|l'|e l']; [| |discriminate].
  - destruct Hb as (a & r & -> & Hs).
    apply (IH _ _ _ Hw); cbn [advanced recorded results current_step].
    + rewrite length_app, Hlen. cbn. lia.
    + lia.
    + rewrite <- Hlen. apply numbered_snoc; assumption.
  - injection Hw as <- <-.
    destruct Hb as [(a & r & -> & Hs) | (e & -> & Hterm)];
      cbn [recorded append_result results].
    + split; [rewrite length_app, Hlen; cbn; lia|].
      exists (results l). split; [exact Hnum|]. right. eexists. split; [reflexivity|].
      left. exists a, r. rewrite Hlen. auto.
    + split; [rewrite length_app, Hlen; cbn; lia|].
      exists (results l). split; [exact Hnum|]. right. eexists. split; [reflexivity|].
      right. exact Hterm.
Qed.

Lemma execute_task_shaped env self task trajectory self' :
  execute_task py_repr env self task = Some (Returned trajectory self') ->
  shaped py_repr trajectory.
Proof.
  intros Hex. unfold execute_task in Hex.
  apply (while_loop_shaped env task _ _ _ _ Hex); cbn.
  - reflexivity.
  - lia.
  - intros j e Hj. discriminate Hj.
Qed.

Lemma terminal_entry_not_step e n action result :
  terminal_entry py_repr e -> e <> step_entry n action result.
Proof. intros [-> | (tn & ->)]; discriminate. Qed.

(** X1. A trajectory that [execute_task] returns is never empty and
    never longer than the step budget. *)
Theorem trajectory_length_bounds env self task trajectory self' :
  execute_task py_repr env self task = Some (Returned trajectory self') ->
  1 <= length trajectory <= max_steps.
Proof.
  intros Hex. destruct (execute_task_shaped env self task _ _ Hex)
    as (Hle & front & _ & [[-> Hlen] | (e & -> & _)]).
  - unfold max_steps in *. lia.
  - split; [rewrite length_app; cbn; lia | exact Hle].
Qed.

(** X2. The entries of a returned trajectory are numbered by their
    place: the entry at index [j] is the step [j + 1], unless it is the
    last entry and a terminal one. *)
Theorem steps_are_numbered_in_order env self task trajectory self' j e :
  execute_task py_repr env self task = Some (Returned trajectory self') ->
  trajectory !! j = Some e ->
  (exists action result, e = step_entry (j + 1) action result) \/
  (j + 1 = length trajectory /\ terminal_entry py_repr e).
Proof.
  intros Hex Hj. destruct (execute_task_shaped env self task _ _ Hex)
    as (_ & front & Hnum & [[-> _] | (e' & -> & Hlast)]).
  - destruct (Hnum j e Hj) as (a & r & -> & _). left. eauto.
  - destruct (decide (j < length front)) as [Hlt|Hge].
    + rewrite lookup_app_l in Hj by exact Hlt.
      destruct (Hnum j e Hj) as (a & r & -> & _). left. eauto.
    + rewrite lookup_app_r in Hj by lia.
      destruct (j - length front) as [|n] eqn:Hd; [|destruct n; discriminate Hj].
      injection Hj as <-. assert (j = length front) as -> by lia.
      destruct Hlast as [(a & r & -> & _) | Hterm]; [left; eauto|].
      right. split; [rewrite length_app; cbn; lia | exact Hterm].
Qed.

(** X3. Nothing follows a success: a step of a returned trajectory whose
    result is tagged [success] is the last entry. *)
Theorem success_is_the_last_entry env self task trajectory self' j n action result :
  execute_task py_repr env self task = Some (Returned trajectory self') ->
  trajectory !! j = Some (step_entry n action result) ->
  is_success result = true ->
  j + 1 = length trajectory.
Proof.
  intros Hex Hj Hs. destruct (execute_task_shaped env self task _ _ Hex)
    as (_ & front & Hnum & Hcases).
  assert (Hfront : forall i, front !! i = Some (step_entry n action result) -> False).
  { intros i Hi. destruct (Hnum i _ Hi) as (a & r & Heq & Hns).
    injection Heq as _ _ <-. congruence. }
  destruct Hcases as [[-> _] | (e' & -> & _)]; [exfalso; eauto|].
  destruct (decide (j < length front)) as [Hlt|Hge].
  - rewrite lookup_app_l in Hj by exact Hlt. exfalso. eauto.
  - apply lookup_lt_Some in Hj. rewrite length_app in *. cbn in *. lia.
Qed.

(** X4. A run that returns before the budget is used up has a reason in
    its last entry: a successful step, or a terminal entry. *)
Theorem early_return_has_a_reason env self task trajectory self' :
  execute_task py_repr env self task = Some (Returned trajectory self') ->
  length trajectory < max_steps ->
  exists e, last trajectory = Some e /\
    ((exists n action result,
         e = step_entry n action result /\ is_success result = true) \/
     terminal_entry py_repr e).
Proof.
  intros Hex Hshort. destruct (execute_task_shaped env self task _ _ Hex)
    as (_ & front & _ & [[-> Hlen] | (e & -> & Hlast)]); [lia|].
  exists e. split; [apply last_snoc|].
  destruct Hlast as [(a & r & -> & Hs) | Hterm]; [left; eauto | right; exact Hterm].
Qed.

(** An exception that leaves the loop was raised by the body on the
    oracle output of some step. *)
Lemma while_loop_raised env task fuel :
  forall l e self',
    while_loop py_repr fuel env task l = Some (Raised e self') ->
    exists i v,
      current_step l <= i < max_steps /\
      oracle env i task (map name (tools (self_ l))) = Returns v /\
      fault_of v e.
Proof.
  induction fuel as [|fuel IH]; intros l e self' Hw; [discriminate|].
  cbn [while_loop] in Hw.
  destruct (current_step l <? max_steps)%nat eqn:Hlt; [|discriminate].
  apply Nat.ltb_lt in Hlt.
  pose proof (loop_body_outcome env task l) as Hb.
  destruct (loop_body py_repr env task l) as [l'|l'|e' l']; [|discriminate|].
  - destruct Hb as (a & r & -> & _).
    destruct (IH _ _ _ Hw) as (i & v & Hi & Ho & Hf).
    cbn [advanced recorded current_step self_ update_memory tools] in Hi, Ho.
    exists i, v. split; [lia|]. split; assumption.
  - injection Hw as <- <-. destruct Hb as (_ & v & Ho & Hf).
    exists (current_step l), v. split; [lia|]. split; assumption.
Qed.

(** X5. The only exceptions that leave [execute_task] come from an
    oracle output that was decoded from JSON but is not a dict
    ([AttributeError] on [get]) or is a dict without [tool_name] or
    without [input] ([KeyError]); an oracle call that raises never makes
    [execute_task] raise. *)
Theorem exceptions_come_from_decoded_output env self task e self' :
  execute_task py_repr env self task = Some (Raised e self') ->
  exists i v,
    i < max_steps /\
    oracle env i task (map name (tools self)) = Returns v /\
    fault_of v e /\
    (e = AttributeError (type_name v) "get" \/
     e = KeyError "tool_name" \/ e = KeyError "input").
Proof.
  intros Hex. unfold execute_task in Hex.
  destruct (while_loop_raised env task _ _ _ _ Hex) as (i & v & Hi & Ho & Hf).
  exists i, v. cbn in Hi, Ho. split; [lia|]. split; [exact Ho|]. split; [exact Hf|].
  destruct v; cbn in Hf; auto. destruct Hf as [[_ ->] | [_ ->]]; auto.
Qed.

(** Two passes through the body that start with the same registry, the
    same results and the same step end alike, whatever the memories. *)
Lemma loop_body_ignores_memory env task l1 l2 :
  tools (self_ l1) = tools (self_ l2) ->
  results l1 = results l2 ->
  current_step l1 = current_step l2 ->
  match loop_body py_repr env task l1, loop_body py_repr env task l2 with
  | Next a, Next b | Break a, Break b =>
      tools (self_ a) = tools (self_ b) /\ results a = results b /\
      current_step a = current_step b
  | Throw e1 _, Throw e2 _ => e1 = e2
  | _, _ => False
  end.
Proof.
  intros Ht Hr Hc. unfold loop_body, _decide_next_action, append_result.
  rewrite <- Ht, <- Hr, <- Hc.
  destruct (oracle env _ _ _) as [msg|v]; [cbn; auto|].
  destruct (py_get v "status") as [e|status]; [reflexivity|].
  destruct (py_eq_str status "error"); [cbn; auto|].
  destruct (py_getitem v "tool_name") as [e|tn]; [reflexivity|].
  destruct (find _ _) as [tool|]; [|cbn; auto].
  destruct (py_getitem v "input") as [e|inp]; [reflexivity|].
  cbn zeta. destruct (py_eq_str _ "success"); cbn; auto.
Qed.

Lemma while_loop_ignores_memory env task fuel :
  forall l1 l2,
    tools (self_ l1) = tools (self_ l2) ->
    results l1 = results l2 ->
    current_step l1 = current_step l2 ->
    outcome_view <$> while_loop py_repr fuel env task l1
      = outcome_view <$> while_loop py_repr fuel env task l2.
Proof.
  induction fuel as [|fuel IH]; intros l1 l2 Ht Hr Hc; [reflexivity|].
  cbn [while_loop]. rewrite <- Hc.
  destruct (current_step l1 <? max_steps)%nat; [|cbn; rewrite Hr; reflexivity].
  pose proof (loop_body_ignores_memory env task l1 l2 Ht Hr Hc) as Hb.
  destruct (loop_body py_repr env task l1) as [a|a|e1 a],
           (loop_body py_repr env task l2) as [b|b|e2 b]; try contradiction.
  - destruct Hb as (H1 & H2 & H3). apply IH; assumption.
  - destruct Hb as (_ & H2 & _). cbn. rewrite H2. reflexivity.
  - subst. reflexivity.
Qed.

(** X6. The memory is only written: what [execute_task] gives back to
    its caller (the trajectory, or the exception) is the same for two
    agents with the same registry, whatever their states hold. *)
Theorem memory_is_never_read env self1 self2 task :
  tools self1 = tools self2 ->
  outcome_view <$> execute_task py_repr env self1 task
    = outcome_view <$> execute_task py_repr env self2 task.
Proof.
  intros Ht. unfold execute_task. apply while_loop_ignores_memory; auto.
Qed.

Lemma while_loop_keeps_registry env task fuel :
  forall l o,
    while_loop py_repr fuel env task l = Some o ->
    tools (agent_of o) = tools (self_ l) /\
    context (state (agent_of o)) = context (state (self_ l)).
Proof.
  induction fuel as [|fuel IH]; intros l o Hw; [discriminate|].
  cbn [while_loop] in Hw.
  destruct (current_step l <? max_steps)%nat; [|injection Hw as <-; auto].
  pose proof (loop_body_outcome env task l) as Hb.
  destruct (loop_body py_repr env task l) as [l'|l'|e l'].
  - destruct Hb as (a & r & -> & _). apply (IH _ _ Hw).
  - injection Hw as <-.
    destruct Hb as [(a & r & -> & _) | (e & -> & _)]; auto.
  - injection Hw as <-. destruct Hb as [-> _]. auto.
Qed.

(** X7. A run of [execute_task], however it ends, leaves the registry
    and the [context] of the agent as they were. *)
Theorem registry_and_context_are_kept env self task o :
  execute_task py_repr env self task = Some o ->
  tools (agent_of o) = tools self /\
  context (state (agent_of o)) = context (state self).
Proof.
  intros Hex. unfold execute_task in Hex.
  apply (while_loop_keeps_registry env task _ _ _ Hex).
Qed.

(** X8. An oracle output that is a dict with [status] equal to ["error"]
    is taken for a failed decision, also when it names a registered tool
    and carries an input: the run ends there with the decision failure
    as its last entry. *)
Theorem error_status_in_the_reply_ends_the_run env self task k d :
  1 <= k <= max_steps ->
  (forall i, i < k - 1 -> goes_on env (tools self) task i) ->
  oracle env (k - 1) task (map name (tools self)) = Returns (PDict d) ->
  lookup_item "status" d = Some (PStr "error") ->
  exists trajectory self',
    execute_task py_repr env self task = Some (Returned trajectory self') /\
    length trajectory = k /\
    last trajectory = Some (error_entry "Failed to decide next action").
Proof.
  intros Hk Hgo Hor Hst.
  destruct (execute_task_prefix py_repr env self task (k - 1))
    as (l' & steps & Hex & Hcs & Htools & Hres & Hlen & _); [lia | exact Hgo |].
  rewrite <- Hcs, <- Htools in Hor.
  assert (Hb : loop_body py_repr env task l' =
                 Break (append_result l' (error_entry "Failed to decide next action"))).
  { unfold loop_body, _decide_next_action. rewrite Hor. cbn [py_get].
    rewrite Hst. reflexivity. }
  replace (S max_steps - (k - 1)) with (S (max_steps - (k - 1))) in Hex by lia.
  rewrite (while_loop_break _ _ env task l' _ (ltac:(lia)) Hb) in Hex.
  eexists _, _. split; [exact Hex|]. cbn [append_result results]. rewrite Hres.
  split; [rewrite length_app, Hlen; cbn; lia | apply last_snoc].
Qed.

End MoreLoopFacts.

(** X9. Looking a tool up: what [resolve] finds is a tool of the registry
    whose name is the requested string, it finds one whenever the
    registry has a tool of that name, and it finds nothing for a name
    that is not a string. *)
Theorem resolve_finds_by_name registry tool_name :
  (forall tool, resolve registry tool_name = Some tool ->
     In tool registry /\ tool_name = PStr (name tool)) /\
  (forall tool, In tool registry -> tool_name = PStr (name tool) ->
     exists tool', resolve registry tool_name = Some tool' /\
                   name tool' = name tool) /\
  ((forall s, tool_name <> PStr s) -> resolve registry tool_name = None).
Proof.
  unfold resolve. split; [|split].
  - intros tool Hf. apply find_some in Hf as [Hin Heq]. split; [exact Hin|].
    destruct tool_name; try discriminate. cbn in Heq.
    apply String.eqb_eq in Heq. congruence.
  - intros tool Hin ->.
    destruct (find _ registry) as [tool'|] eqn:Hf.
    + exists tool'. split; [reflexivity|].
      apply find_some in Hf as [_ Heq]. cbn in Heq.
      apply String.eqb_eq in Heq. congruence.
    + exfalso. pose proof (find_none _ _ Hf tool Hin) as Hno. cbn in Hno.
      rewrite String.eqb_refl in Hno. discriminate.
  - intros Hns. destruct (find _ registry) as [tool|] eqn:Hf; [|reflexivity].
    apply find_some in Hf as [_ Heq].
    destruct tool_name; try discriminate. exfalso. eapply Hns. reflexivity.
Qed.

(** X10. Each of the three built-in tools answers with a dict tagged
    [success] or [error], whatever its client does, and with [error]
    exactly when the client call raises. *)
Theorem built_in_tools_tag_their_result env i input tool :
  In tool _initialize_tools ->
  (tagged "success" (function tool env i input) \/
   tagged "error" (function tool env i input)) /\
  (tagged "error" (function tool env i input) <->
   exists msg, invocation_fails env i input msg tool).
Proof.
  intros Hin. cbn in Hin.
  destruct Hin as [<- | [<- | [<- | []]]]; cbn [function].
  - unfold _search_web. destruct (tavily_search env i input) as [msg|v] eqn:Hc.
    + split; [right; reflexivity|]. split; [|reflexivity].
      intros _. exists msg. constructor. exact Hc.
    + split; [left; reflexivity|]. split; [discriminate|].
      intros (msg & Hf). inversion Hf. congruence.
  - unfold _analyze_text. destruct (openai_chat env i _ input) as [msg|v] eqn:Hc.
    + split; [right; reflexivity|]. split; [|reflexivity].
      intros _. exists msg. constructor. exact Hc.
    + split; [left; reflexivity|]. split; [discriminate|].
      intros (msg & Hf). inversion Hf. congruence.
  - unfold _summarize_text. destruct (openai_chat env i _ input) as [msg|v] eqn:Hc.
    + split; [right; reflexivity|]. split; [|reflexivity].
      intros _. exists msg. constructor. exact Hc.
    + split; [left; reflexivity|]. split; [discriminate|].
      intros (msg & Hf). inversion Hf. congruence.
Qed.

(** * Further properties of the task records *)

Section MoreRecordFacts.

Variable py_repr : pyval -> string.
Variable json_dumps : list pydict -> string.
Variable json_loads : string -> reply.
Variable redis_encode : pyval -> option string.

Local Abbreviation reachable := (reachable py_repr json_dumps json_loads redis_encode).

(** X11. [create_task] accepts a request exactly when its body is a JSON
    object with a [task] whose value the Redis client can encode.  Every
    other body (absent, empty, an array, a string, a number, an object
    without [task]) gets no 200, writes nothing and starts no worker. *)
Theorem create_task_accepts_exactly now task_id data (d d' : redis) resp started :
  create_task redis_encode now task_id data d = (d', resp, started) ->
  (started <> None <->
   exists items task,
     data = PDict items /\ lookup_item "task" items = Some task /\
     redis_encode task <> None) /\
  (started = None -> d' = d /\ forall body, resp <> Response 200 body) /\
  (forall id task, started = Some (id, task) ->
     id = task_id /\ exists body, resp = Response 200 body).
Proof.
  unfold create_task. intros H.
  assert (Hrej : forall r, (forall body, r <> Response 200 body) ->
            (d, r, @None (string * pyval)) = (d', resp, started) ->
            (forall items task, data = PDict items ->
               lookup_item "task" items = Some task ->
               redis_encode task <> None -> False) ->
            (started <> None <->
             exists items task,
               data = PDict items /\ lookup_item "task" items = Some task /\
               redis_encode task <> None) /\
            (started = None -> d' = d /\ forall body, resp <> Response 200 body) /\
            (forall id task, started = Some (id, task) ->
               id = task_id /\ exists body, resp = Response 200 body)).
  { intros r Hr [= <- <- <-] Hno. split; [|split].
    - split; [congruence|]. intros (items & task & Hd & Hl & He).
      exfalso. eauto.
    - intros _. split; [reflexivity | exact Hr].
    - intros id task [=]. }
  destruct (negb (py_truthy data)) eqn:Htruthy.
  { apply Hrej in H; [exact H | discriminate|].
    intros items task -> Hl _. destruct items; [discriminate Hl | discriminate Htruthy]. }
  destruct (py_contains "task" data) as [e|[|]] eqn:Hc.
  - apply Hrej in H; [exact H | discriminate|].
    intros items task -> _ _. discriminate Hc.
  - destruct (py_getitem data "task") as [e|task] eqn:Hg.
    { apply Hrej in H; [exact H | discriminate|].
      intros items task -> Hl _. cbn in Hg. rewrite Hl in Hg. discriminate Hg. }
    destruct (redis_encode task) as [text|] eqn:He.
    2:{ apply Hrej in H; [exact H | discriminate|].
        intros items task' -> Hl He'. cbn in Hg. rewrite Hl in Hg.
        injection Hg as ->. congruence. }
    injection H as <- <- <-. split; [|split].
    + split; [|discriminate]. intros _.
      destruct data as [| | | | |items|items]; try discriminate Hg.
      cbn in Hg. destruct (lookup_item "task" items) as [x|] eqn:Hl; [|discriminate Hg].
      injection Hg as ->. exists items, task. rewrite He. auto.
    + discriminate.
    + intros id task' [= <- <-]. split; [reflexivity | eauto].
  - apply Hrej in H; [exact H | discriminate|].
    intros items task -> Hl _. cbn in Hc. rewrite Hl in Hc. discriminate Hc.
Qed.

(** An accepted request: what it wrote and whom it started. *)
Lemma create_task_accepted now task_id data (d d' : redis) resp id task :
  create_task redis_encode now task_id data d = (d', resp, Some (id, task)) ->
  id = task_id /\
  exists text,
    redis_encode task = Some text /\
    d' = expire now (task_key task_id) 3600
           (hset now (task_key task_id) (pending_record text) d).
Proof.
  unfold create_task.
  destruct (negb (py_truthy data)); [discriminate|].
  destruct (py_contains "task" data) as [e|[|]]; try discriminate.
  destruct (py_getitem data "task") as [e|task']; [discriminate|].
  destruct (redis_encode task') as [text|] eqn:He; [|discriminate].
  intros [= <- _ <- <-]. split; [reflexivity|]. exists text. auto.
Qed.



(** X13. A query for an identifier that no submission was given finds
    nothing, in every state that the service can reach and at every
    instant. *)
Theorem unknown_task_is_not_found s t task_id :
  reachable s ->
  pool s !! task_id = None ->
  get_task_status json_loads t task_id (db s)
    = Response 404 [("error", PStr "Task not found")].
Proof.
  intros Hreach Hnone.
  pose proof (reachable_agrees _ _ _ _ s Hreach task_id) as Hag.
  rewrite Hnone in Hag. apply get_task_status_gone.
  unfold hgetall, current. rewrite Hag. reflexivity.
Qed.

(** The record of a task whose worker wrote both times within the hour:
    the fields of the outcome over [running] over the pending record. *)
Lemma timely_record now t_start t_end t task_id text (d : redis) o mapping :
  (forall d0, store_outcome json_dumps t_end task_id o d0
                = hset t_end (task_key task_id) mapping d0) ->
  (t_start < now + 3600)%Z -> (t_end < now + 3600)%Z -> (t < now + 3600)%Z ->
  hgetall t (task_key task_id)
    (store_outcome json_dumps t_end task_id o
       (store_running t_start task_id
          (expire now (task_key task_id) 3600
             (hset now (task_key task_id) (pending_record text) d))))
  = mapping ∪ ({[ "status" := "running" ]} ∪
                 (pending_record text ∪ hgetall now (task_key task_id) d)).
Proof.
  intros Hso Hs He Ht. rewrite Hso. unfold store_running.
  pose proof (expire_after_hset now (task_key task_id) 3600
                (pending_record text) d) as H1.
  apply (hset_live t_start _ {[ "status" := "running" ]}) in H1;
    [|unfold live; cbn [deadline]; apply Z.ltb_lt; exact Hs].
  apply (hset_live t_end _ mapping) in H1;
    [|unfold live; cbn [deadline]; apply Z.ltb_lt; exact He].
  erewrite hgetall_deadline; [| exact H1 | reflexivity].
  cbn [fields]. apply Z.ltb_lt in Ht. rewrite Ht. reflexivity.
Qed.

(** X14. Submit, run, ask: when the agent returns a trajectory and the
    worker writes within the hour, a query before the deadline answers
    [completed] with the task text and the decoded trajectory, and
    without an error field. *)
Theorem finished_task_reads_completed now t_start t_end t env agent task_id data
    (d d1 : redis) resp task trajectory agent' v :
  create_task redis_encode now task_id data d = (d1, resp, Some (task_id, task)) ->
  execute_task py_repr env agent task = Some (Returned trajectory agent') ->
  json_loads (json_dumps trajectory) = Returns v ->
  (t_start < now + 3600)%Z -> (t_end < now + 3600)%Z -> (t < now + 3600)%Z ->
  exists text,
    redis_encode task = Some text /\
    get_task_status json_loads t task_id
      (execute_task_async py_repr json_dumps t_start t_end env agent
         task_id task d1).1
    = Response 200 [("task_id", PStr task_id); ("task", PStr text);
                    ("status", PStr "completed"); ("results", v)].
Proof.
  intros Hc Hex Hjson Hs He Ht.
  apply create_task_accepted in Hc as (_ & text & Henc & ->).
  exists text. split; [exact Henc|].
  unfold execute_task_async. rewrite Hex. cbn [fst].
  unfold get_task_status.
  rewrite (timely_record now t_start t_end t task_id text d
             (Returned trajectory agent')
             {[ "status" := "completed";
                "results" := json_dumps trajectory;
                "error" := "" ]}
             (fun _ => eq_refl) Hs He Ht).
  set (F := _ ∪ (_ ∪ (_ ∪ _))).
  assert (Hst : F !! "status" = Some "completed")
    by (apply lookup_union_Some_l; reflexivity).
  assert (Hres : F !! "results" = Some (json_dumps trajectory))
    by (apply lookup_union_Some_l; reflexivity).
  assert (Htask : F !! "task" = Some text).
  { unfold F. rewrite lookup_union_r by reflexivity.
    rewrite lookup_union_r by reflexivity.
    apply lookup_union_Some_l. reflexivity. }
  destruct (decide (F = ∅)) as [Hempty|_].
  { rewrite Hempty, lookup_empty in Hst. discriminate Hst. }
  rewrite Hst, Hres, Htask. cbn [from_option]. unfold id at 1. rewrite Hjson.
  destruct (decide (Some "completed" = Some "completed")) as [_|Hne];
    [|contradiction].
  destruct (decide (Some "completed" = Some "failed")) as [[=]|_].
  reflexivity.
Qed.

(** X15. Submit, run, ask, when the agent raises: within the hour a query
    answers [failed] with the task text and [str(e)] as the error, and
    without results. *)
Theorem failed_task_reads_failed now t_start t_end t env agent task_id data
    (d d1 : redis) resp task e agent' :
  create_task redis_encode now task_id data d = (d1, resp, Some (task_id, task)) ->
  execute_task py_repr env agent task = Some (Raised e agent') ->
  (t_start < now + 3600)%Z -> (t_end < now + 3600)%Z -> (t < now + 3600)%Z ->
  exists text,
    redis_encode task = Some text /\
    get_task_status json_loads t task_id
      (execute_task_async py_repr json_dumps t_start t_end env agent
         task_id task d1).1
    = Response 200 [("task_id", PStr task_id); ("task", PStr text);
                    ("status", PStr "failed"); ("error", PStr (str_exn e))].
Proof.
  intros Hc Hex Hs He Ht.
  apply create_task_accepted in Hc as (_ & text & Henc & ->).
  exists text. split; [exact Henc|].
  unfold execute_task_async. rewrite Hex. cbn [fst].
  unfold get_task_status.
  rewrite (timely_record now t_start t_end t task_id text d
             (Raised e agent')
             {[ "status" := "failed"; "error" := str_exn e ]}
             (fun _ => eq_refl) Hs He Ht).
  set (F := _ ∪ (_ ∪ (_ ∪ _))).
  assert (Hst : F !! "status" = Some "failed")
    by (apply lookup_union_Some_l; reflexivity).
  assert (Herr : F !! "error" = Some (str_exn e))
    by (apply lookup_union_Some_l; reflexivity).
  assert (Htask : F !! "task" = Some text).
  { unfold F. rewrite lookup_union_r by reflexivity.
    rewrite lookup_union_r by reflexivity.
    apply lookup_union_Some_l. reflexivity. }
  destruct (decide (F = ∅)) as [Hempty|_].
  { rewrite Hempty, lookup_empty in Hst. discriminate Hst. }
  rewrite Hst, Herr, Htask. cbn [default].
  destruct (decide (Some "failed" = Some "completed")) as [[=]|_].
  destruct (decide (Some "failed" = Some "failed")) as [_|Hne]; [|contradiction].
  reflexivity.
Qed.

(** X16. A submission and a worker write under the key of their own task
    only: every other key of the store is as it was. *)
Theorem other_records_are_untouched now t_start t_end env agent task_id data task
    key (d : redis) :
  key <> task_key task_id ->
  (create_task redis_encode now task_id data d).1.1 !! key = d !! key /\
  (execute_task_async py_repr json_dumps t_start t_end env agent
     task_id task d).1 !! key = d !! key.
Proof.
  intros Hne. split.
  - destruct (create_task redis_encode now task_id data d) as [[d' resp] started]
      eqn:Hc.
    cbn [fst]. apply create_task_cases in Hc as [[-> _] | (t' & text & _ & ->)];
      [reflexivity|].
    rewrite expire_lookup_ne, hset_lookup_ne by congruence. reflexivity.
  - unfold execute_task_async, store_running.
    destruct (execute_task py_repr env agent task) as [o|]; cbn [fst].
    + destruct (store_outcome_status json_dumps t_end task_id o)
        as (m & v & -> & _).
      rewrite !hset_lookup_ne by congruence. reflexivity.
    + rewrite hset_lookup_ne by congruence. reflexivity.
Qed.

(** X17. The worker never leaves its record [running]: when it is done
    the status is [completed] if the agent returned and [failed] if it
    raised, and in the second case the error field is [str(e)]. *)
Theorem worker_ends_in_a_terminal_state t_start t_end env agent task_id task
    (d : redis) :
  let record := hgetall t_end (task_key task_id)
                  (execute_task_async py_repr json_dumps t_start t_end env agent
                     task_id task d).1 in
  (exists trajectory agent',
      execute_task py_repr env agent task = Some (Returned trajectory agent') /\
      record !! "status" = Some "completed" /\
      record !! "results" = Some (json_dumps trajectory) /\
      record !! "error" = Some "") \/
  (exists e agent',
      execute_task py_repr env agent task = Some (Raised e agent') /\
      record !! "status" = Some "failed" /\
      record !! "error" = Some (str_exn e)).
Proof.
  intros record. subst record. unfold execute_task_async.
  destruct (execute_task_total py_repr env agent task) as [[trajectory a|e a] Ho];
    rewrite Ho; cbn [fst store_outcome]; rewrite hgetall_hset.
  - left. exists trajectory, a. split; [reflexivity|].
    repeat split; apply lookup_union_Some_l; reflexivity.
  - right. exists e, a. split; [reflexivity|].
    repeat split; apply lookup_union_Some_l; reflexivity.
Qed.

End MoreRecordFacts.

(** ** The listing *)

Lemma split_without_separator sep s :
  has_char sep s = false -> split sep s = [s].
Proof.
  induction s as [|c rest IH]; [reflexivity|]. cbn.
  intros H. apply orb_false_iff in H as [Hc Hrest].
  rewrite Hc, (IH Hrest). reflexivity.
Qed.

Lemma split_nonempty sep s : split sep s <> [].
Proof.
  destruct s as [|c rest]; [discriminate|]. cbn.
  destruct (Ascii.eqb c sep); [discriminate|].
  destruct (split sep rest); discriminate.
Qed.

Lemma split_at_separator sep a b :
  has_char sep a = false ->
  split sep (a +:+ String sep b) = a :: split sep b.
Proof.
  induction a as [|c rest IH]; intros H.
  - change ("" +:+ String sep b) with (String sep b). cbn.
    rewrite Ascii.eqb_refl. reflexivity.
  - change (String c rest +:+ String sep b) with (String c (rest +:+ String sep b)).
    cbn in H. apply orb_false_iff in H as [Hc Hrest].
    cbn [split]. rewrite Hc, (IH Hrest). reflexivity.
Qed.

Lemma task_id_comes_back_from_key_aux task_id :
  has_char ":" task_id = false ->
  split ":" (task_key task_id) = ["task"; task_id] /\
  default "" (last (split ":" (task_key task_id))) = task_id.
Proof.
  intros H.
  assert (Hs : split ":" (task_key task_id) = ["task"; task_id]).
  { change (task_key task_id) with ("task" +:+ String ":" task_id).
    rewrite split_at_separator by reflexivity.
    rewrite (split_without_separator _ _ H). reflexivity. }
  split; [exact Hs|]. rewrite Hs. reflexivity.
Qed.

(** X18. The identifier comes back out of the key: for an identifier
    without a colon, as [uuid4] gives them, the last piece of
    [task:<id>] split at the colons is the identifier; in general the
    pieces of the key are [task] followed by the pieces of the
    identifier, so with a colon in it only what follows its last colon
    comes back. *)
Theorem task_id_comes_back_from_key task_id :
  split ":" (task_key task_id) = "task" :: split ":" task_id /\
  (has_char ":" task_id = false ->
   default "" (last (split ":" (task_key task_id))) = task_id).
Proof.
  split.
  - change (task_key task_id) with ("task" +:+ String ":" task_id).
    apply split_at_separator. reflexivity.
  - apply task_id_comes_back_from_key_aux.
Qed.

Lemma task_key_prefix task_id : String.prefix "task:" (task_key task_id) = true.
Proof.
  change (task_key task_id)
    with (String "t" (String "a" (String "s" (String "k" (String ":" task_id))))).
  cbn. destruct task_id; reflexivity.
Qed.

Lemma scan_iter_spec now prefix (d : redis) key :
  In key (scan_iter now prefix d) <->
  exists e, d !! key = Some e /\ live now e = true /\
            String.prefix prefix key = true.
Proof.
  unfold scan_iter. rewrite in_map_iff. split.
  - intros ([k e] & <- & Hin). apply filter_In in Hin as [Hin Hf].
    cbn [fst snd] in *. apply andb_true_iff in Hf as [Hp Hl].
    apply list_elem_of_In, elem_of_map_to_list in Hin. eauto.
  - intros (e & Hd & Hl & Hp). exists (key, e). split; [reflexivity|].
    apply filter_In. split.
    + apply list_elem_of_In, elem_of_map_to_list. exact Hd.
    + cbn [fst snd]. rewrite Hp, Hl. reflexivity.
Qed.

(** X19. The listing shows every record that exists at the instant of
    the call, with the identifier, task and status that a status query
    would show, and it shows nothing else: every item comes from a key
    that starts with [task:] and has not expired. *)
Theorem list_tasks_shows_the_live_records now (d : redis) :
  exists tasks,
    list_tasks now d = Response 200 [("tasks", PList tasks)] /\
    (forall task_id e,
       d !! task_key task_id = Some e -> live now e = true ->
       has_char ":" task_id = false ->
       In (listed task_id (fields e)) tasks) /\
    (forall item, In item tasks ->
       exists key e,
         d !! key = Some e /\ live now e = true /\
         String.prefix "task:" key = true /\
         item = listed (default "" (last (split ":" key))) (fields e)).
Proof.
  eexists. split; [reflexivity|]. split.
  - intros task_id e Hd Hl Hcolon. apply in_map_iff.
    exists (task_key task_id). split.
    + unfold listed, hgetall, current. rewrite Hd, Hl.
      rewrite (proj2 (task_id_comes_back_from_key_aux task_id Hcolon)).
      reflexivity.
    + apply scan_iter_spec. exists e.
      split; [exact Hd|]. split; [exact Hl | apply task_key_prefix].
  - intros item Hin. apply in_map_iff in Hin as (key & <- & Hkey).
    apply scan_iter_spec in Hkey as (e & Hd & Hl & Hp).
    exists key, e. repeat split; try assumption.
    unfold listed, hgetall, current. rewrite Hd, Hl. reflexivity.
Qed.

Section ReachableFacts.

Variable py_repr : pyval -> string.
Variable json_dumps : list pydict -> string.
Variable json_loads : string -> reply.
Variable redis_encode : pyval -> option string.

Local Abbreviation reachable := (reachable py_repr json_dumps json_loads redis_encode).

(** A 200 answer of [get_task_status] comes from a record that is there,
    and carries its status. *)
Lemma get_task_status_found t task_id (d : redis) body :
  get_task_status json_loads t task_id d = Response 200 body ->
  exists e,
    d !! task_key task_id = Some e /\ live t e = true /\
    lookup_item "status" body
      = Some (PStr (default "unknown" (fields e !! "status"))).
Proof.
  unfold get_task_status, hgetall.
  destruct (current t (task_key task_id) d) as [e|] eqn:Hc.
  2:{ destruct (decide (∅ = ∅)) as [_|Hne]; [intros [=] | contradiction]. }
  apply current_Some in Hc as [Hd Hl].
  intros H. exists e. split; [exact Hd|]. split; [exact Hl|].
  destruct (decide (fields e = ∅)) as [_|_]; [discriminate H|].
  destruct (decide (fields e !! "status" = Some "completed")).
  - destruct (json_loads _); [discriminate H|].
    destruct (decide (fields e !! "status" = Some "failed"));
      injection H as <-; reflexivity.
  - destruct (decide (fields e !! "status" = Some "failed"));
      injection H as <-; reflexivity.
Qed.

(** X20. In every state that the service can reach, the status that a
    query shows is one of [pending], [running], [completed] and [failed]:
    the fallback ["unknown"] of [get_task_status] never shows. *)
Theorem reachable_status_is_never_unknown s t task_id body :
  reachable s ->
  get_task_status json_loads t task_id (db s) = Response 200 body ->
  exists status,
    lookup_item "status" body = Some (PStr status) /\
    (status = "pending" \/ status = "running" \/
     status = "completed" \/ status = "failed").
Proof.
  intros Hreach Hget.
  apply get_task_status_found in Hget as (e & Hd & _ & Hst).
  pose proof (reachable_agrees _ _ _ _ s Hreach task_id) as Hag.
  unfold status_of, record_status in Hag. rewrite Hd in Hag.
  destruct (pool s !! task_id) as [[description [| |]]|]; [| | |discriminate Hag].
  - rewrite Hag in Hst. eauto.
  - rewrite Hag in Hst. eauto 6.
  - destruct Hag as [Hag | Hag]; rewrite Hag in Hst; eauto 7.
Qed.

End ReachableFacts.

Section RetentionFacts.

Variable py_repr : pyval -> string.
Variable json_dumps : list pydict -> string.
Variable json_loads : string -> reply.
Variable redis_encode : pyval -> option string.


End RetentionFacts.

(** * The further properties on the sample runs *)

Lemma trajectory_length_bounds_witness :
  exists trajectory self',
    execute_task sample_repr env_oracle_fails_third AIAgent_new (PStr "t")
      = Some (Returned trajectory self') /\
    1 <= length trajectory <= max_steps.
Proof.
  eexists _, _.
  refine ((fun H => conj H (trajectory_length_bounds sample_repr _ _ _ _ _ H)) _).
  reflexivity.
Defined.

Lemma steps_are_numbered_in_order_witness :
  exists trajectory self',
    execute_task sample_repr env_oracle_fails_third AIAgent_new (PStr "t")
      = Some (Returned trajectory self') /\
    trajectory !! 1 = Some (step_entry 2 search_news search_timed_out) /\
    ((exists action result,
         step_entry 2 search_news search_timed_out = step_entry (1 + 1) action result) \/
     (1 + 1 = length trajectory /\
      terminal_entry sample_repr (step_entry 2 search_news search_timed_out))).
Proof.
  eexists _, _.
  refine ((fun H H' => conj H (conj H'
             (steps_are_numbered_in_order sample_repr _ _ _ _ _ 1 _ H H'))) _ _);
    reflexivity.
Defined.

Lemma success_is_the_last_entry_witness :
  exists trajectory self',
    execute_task sample_repr env_search_answers AIAgent_new (PStr "find news about X")
      = Some (Returned trajectory self') /\
    trajectory !! 0 = Some (step_entry 1 search_news search_succeeded) /\
    is_success search_succeeded = true /\
    0 + 1 = length trajectory.
Proof.
  eexists _, _.
  refine ((fun H H' H'' => conj H (conj H' (conj H''
             (success_is_the_last_entry sample_repr _ _ _ _ _ 0 _ _ _ H H' H''))))
            _ _ _); reflexivity.
Defined.

Lemma early_return_has_a_reason_witness :
  exists trajectory self',
    execute_task sample_repr env_unknown_tool AIAgent_new (PStr "t")
      = Some (Returned trajectory self') /\
    length trajectory < max_steps /\
    exists e, last trajectory = Some e /\
      ((exists n action result,
           e = step_entry n action result /\ is_success result = true) \/
       terminal_entry sample_repr e).
Proof.
  eexists _, _.
  refine ((fun H H' => conj H (conj H'
             (early_return_has_a_reason sample_repr _ _ _ _ _ H H'))) _ _).
  - reflexivity.
  - cbn. unfold max_steps. lia.
Defined.

Lemma exceptions_come_from_decoded_output_witness :
  execute_task sample_repr env_empty_object AIAgent_new (PStr "t")
    = Some (Raised (KeyError "tool_name") (set_current_task AIAgent_new (PStr "t"))) /\
  exists i v,
    i < max_steps /\
    oracle env_empty_object i (PStr "t") (map name (tools AIAgent_new)) = Returns v /\
    fault_of v (KeyError "tool_name") /\
    (KeyError "tool_name" = AttributeError (type_name v) "get" \/
     KeyError "tool_name" = KeyError "tool_name" \/
     KeyError "tool_name" = KeyError "input").
Proof.
  refine ((fun H => conj H
             (exceptions_come_from_decoded_output sample_repr _ _ _ _ _ H)) _).
  reflexivity.
Defined.

Lemma memory_is_never_read_witness :
  tools AIAgent_new = tools seasoned_agent /\
  outcome_view <$> execute_task sample_repr env_search_down AIAgent_new (PStr "t")
    = outcome_view <$> execute_task sample_repr env_search_down seasoned_agent (PStr "t").
Proof.
  assert (H : tools AIAgent_new = tools seasoned_agent) by reflexivity.
  split; [exact H|].
  exact (memory_is_never_read sample_repr env_search_down _ _ (PStr "t") H).
Defined.

Lemma registry_and_context_are_kept_witness :
  let o := Returned [error_entry "Tool nonexistent not found"]
             (set_current_task seasoned_agent (PStr "t")) in
  execute_task sample_repr env_unknown_tool seasoned_agent (PStr "t") = Some o /\
  tools (agent_of o) = tools seasoned_agent /\
  context (state (agent_of o)) = context (state seasoned_agent).
Proof.
  intros o.
  assert (H : execute_task sample_repr env_unknown_tool seasoned_agent (PStr "t")
              = Some o) by reflexivity.
  split; [exact H|].
  exact (registry_and_context_are_kept sample_repr _ _ _ _ H).
Defined.

Lemma error_status_in_the_reply_ends_the_run_witness :
  (oracle env_reply_says_error (1 - 1) (PStr "t") (map name (tools AIAgent_new))
     = Returns (PDict hedged_search) /\
   lookup_item "status" hedged_search = Some (PStr "error") /\
   resolve (tools AIAgent_new) (PStr "web_search") = Some web_search_tool) /\
  exists trajectory self',
    execute_task sample_repr env_reply_says_error AIAgent_new (PStr "t")
      = Some (Returned trajectory self') /\
    length trajectory = 1 /\
    last trajectory = Some (error_entry "Failed to decide next action").
Proof.
  split; [repeat split|].
  apply (error_status_in_the_reply_ends_the_run sample_repr env_reply_says_error
           AIAgent_new (PStr "t") 1 hedged_search).
  - unfold max_steps. lia.
  - intros i Hi. cbn in Hi. lia.
  - reflexivity.
  - reflexivity.
Defined.

Lemma built_in_tools_tag_their_result_witness :
  In web_search_tool _initialize_tools /\
  (tagged "success" (function web_search_tool env_search_down 0 (PStr "X news")) \/
   tagged "error" (function web_search_tool env_search_down 0 (PStr "X news"))) /\
  (tagged "error" (function web_search_tool env_search_down 0 (PStr "X news")) <->
   exists msg, invocation_fails env_search_down 0 (PStr "X news") msg web_search_tool).
Proof.
  assert (H : In web_search_tool _initialize_tools) by (left; reflexivity).
  split; [exact H|].
  exact (built_in_tools_tag_their_result env_search_down 0 (PStr "X news") _ H).
Defined.

Lemma sample_submission :
  create_task sample_encode 0 "u1" news_request ∅
    = (store_submitted, created_response, Some ("u1", PStr "find news about X")).
Proof. reflexivity. Defined.

Lemma create_task_accepts_exactly_witness :
  create_task sample_encode 0 "u1" news_request ∅
    = (store_submitted, created_response, Some ("u1", PStr "find news about X")) /\
  (Some ("u1", PStr "find news about X") <> None <->
   exists items task,
     news_request = PDict items /\ lookup_item "task" items = Some task /\
     sample_encode task <> None).
Proof.
  split; [exact sample_submission|].
  exact (proj1 (create_task_accepts_exactly sample_encode 0 "u1" news_request
                  ∅ store_submitted created_response _ sample_submission)).
Defined.


Lemma unknown_task_is_not_found_witness :
  reachable sample_repr sample_dumps sample_loads sample_encode boot /\
  pool boot !! "u2" = None /\
  get_task_status sample_loads 7 "u2" (db boot)
    = Response 404 [("error", PStr "Task not found")].
Proof.
  assert (H1 : reachable sample_repr sample_dumps sample_loads sample_encode boot)
    by apply rtc_refl.
  assert (H2 : pool boot !! "u2" = None) by reflexivity.
  split; [exact H1|]. split; [exact H2|].
  exact (unknown_task_is_not_found sample_repr sample_dumps sample_loads
           sample_encode boot 7 "u2" H1 H2).
Defined.

Lemma finished_task_reads_completed_witness :
  exists text,
    sample_encode (PStr "find news about X") = Some text /\
    get_task_status sample_loads 9 "u1"
      (execute_task_async sample_repr sample_dumps 1 2 env_search_answers AIAgent_new
         "u1" (PStr "find news about X") store_submitted).1
    = Response 200 [("task_id", PStr "u1"); ("task", PStr text);
                    ("status", PStr "completed"); ("results", PStr "[...]")].
Proof.
  refine (finished_task_reads_completed sample_repr sample_dumps sample_loads
            sample_encode 0 1 2 9 env_search_answers AIAgent_new "u1" news_request
            ∅ store_submitted created_response _ _ _ _
            sample_submission _ _ _ _ _); try reflexivity; lia.
Defined.

Lemma failed_task_reads_failed_witness :
  exists text,
    sample_encode (PStr "find news about X") = Some text /\
    get_task_status sample_loads 9 "u1"
      (execute_task_async sample_repr sample_dumps 1 2 env_empty_object AIAgent_new
         "u1" (PStr "find news about X") store_submitted).1
    = Response 200 [("task_id", PStr "u1"); ("task", PStr text);
                    ("status", PStr "failed");
                    ("error", PStr (str_exn (KeyError "tool_name")))].
Proof.
  refine (failed_task_reads_failed sample_repr sample_dumps sample_loads
            sample_encode 0 1 2 9 env_empty_object AIAgent_new "u1" news_request
            ∅ store_submitted created_response _ _ _
            sample_submission _ _ _ _); try reflexivity; lia.
Defined.

Lemma other_records_are_untouched_witness :
  task_key "u2" <> task_key "u1" /\
  (create_task sample_encode 0 "u1" news_request store_submitted).1.1 !! task_key "u2"
    = store_submitted !! task_key "u2" /\
  (execute_task_async sample_repr sample_dumps 1 2 env_search_down AIAgent_new
     "u1" (PStr "find news about X") store_submitted).1 !! task_key "u2"
    = store_submitted !! task_key "u2".
Proof.
  assert (H : task_key "u2" <> task_key "u1") by discriminate.
  split; [exact H|].
  exact (other_records_are_untouched sample_repr sample_dumps sample_encode
           0 1 2 env_search_down AIAgent_new "u1" news_request
           (PStr "find news about X") (task_key "u2") store_submitted H).
Defined.

Lemma reachable_status_is_never_unknown_witness :
  reachable sample_repr sample_dumps sample_loads sample_encode sample_submitted /\
  exists status,
    lookup_item "status"
      [("task_id", PStr "u1"); ("task", PStr "find news about X");
       ("status", PStr "pending")] = Some (PStr status) /\
    (status = "pending" \/ status = "running" \/
     status = "completed" \/ status = "failed").
Proof.
  assert (H1 : reachable sample_repr sample_dumps sample_loads sample_encode
                 sample_submitted).
  { apply rtc_once.
    apply (step_create sample_repr sample_dumps sample_loads sample_encode
             boot 0 "u1" news_request store_submitted created_response
             (Some ("u1", PStr "find news about X"))); reflexivity. }
  assert (H2 : get_task_status sample_loads 5 "u1" (db sample_submitted)
               = Response 200 [("task_id", PStr "u1");
                               ("task", PStr "find news about X");
                               ("status", PStr "pending")])
    by (vm_compute; reflexivity).
  split; [exact H1|].
  exact (reachable_status_is_never_unknown sample_repr sample_dumps sample_loads
           sample_encode sample_submitted 5 "u1" _ H1 H2).
Defined.

